(** * Nixie circuits: a shallow embedding of
      [controller/nixie/circuits/Circuit.ts], with the start-up and shutdown
      functions of [app.ts] and [escapeRegex] of
      [web/interfaces/baseInterface.ts]

    The file embeds the two classes of the source, [NixieCircuit] (one
    bound-or-virtual equipment unit) and [NixieCircuitCollection] (the ordered
    registry of units with its poll timer), as state-passing functions, and
    proves the properties of the device-binding layer about them.

    Conventions.
    - An [async] method is a function from the world before the call to the
      world after it and the way the returned promise settles ([outcome]).
      An [await] is sequencing: the methods are followed one call at a time.
    - Live-state objects ([CircuitState]) are shared and mutated in place, so
      they live in a store indexed by reference and methods receive the
      reference.
    - External collaborators (the device service, the live-state lookup, the
      logger's [reject]) are fields of [Env]: what they answer is an input of
      every theorem.  What the code asks of them is recorded in the trace of
      the world, together with the log lines it writes. *)

From stdpp Require Import base strings list pretty.
From Stdlib Require Import ZArith Lia Ascii.

Local Open Scope Z_scope.
Local Open Scope string_scope.
Local Open Scope list_scope.

(** ** JavaScript values used by the source *)

(** A string-valued property that may be missing. *)
Inductive JsString : Type :=
| JsUndefined
| JsNull
| JsStr (s : string).

(** Interpolation of such a property in a template literal. *)
Definition js_template (v : JsString) : string :=
  match v with
  | JsUndefined => "undefined"
  | JsNull => "null"
  | JsStr s => s
  end.

Definition js_bool (b : bool) : string := if b then "true" else "false".

(** Thrown values: [new Error(msg)] and the engine's [TypeError]. *)
Inductive JsError : Type :=
| Error (message : string)
| TypeError (message : string).

Definition message (e : JsError) : string :=
  match e with Error m | TypeError m => m end.

(** [`${err}`]: [Error.prototype.toString]. *)
Definition js_error_string (e : JsError) : string :=
  match e with
  | Error m => "Error: " +:+ m
  | TypeError m => "TypeError: " +:+ m
  end.

(** How a call (or a promise) ends. *)
Inductive outcome (A : Type) : Type :=
| Resolved (a : A)
| Rejected (e : JsError).
Arguments Resolved {A} a.
Arguments Rejected {A} e.

Definition is_rejected {A} (r : outcome A) : bool :=
  match r with Rejected _ => true | Resolved _ => false end.

(** [x || d] on a number that may be undefined: [undefined] and [0] are
    falsy. *)
Definition js_or (x : option Z) (d : Z) : Z :=
  match x with
  | None => d
  | Some n => if decide (n = 0) then d else n
  end.

(** ** Data model *)

Module Circuit.
(** The configuration entry ([Circuit] of [controller/Equipment]). *)
Record t : Type := mk {
  id : Z;
  name : string;
  master : Z;
  connectionId : JsString;
  deviceBinding : JsString;
}.

Definition set_master (m : Z) (c : t) : t :=
  mk (id c) (name c) m (connectionId c) (deviceBinding c).
End Circuit.

Module CircuitState.
(** The published state of one circuit ([ICircuitState]). *)
Record t : Type := mk {
  id : Z;
  name : string;
  isOn : bool;
  commStatus : Z;
}.

Definition set_isOn (v : bool) (s : t) : t := mk (id s) (name s) v (commStatus s).
Definition set_commStatus (v : Z) (s : t) : t := mk (id s) (name s) (isOn s) v.
End CircuitState.

(** Modelled from the spec: the class [InterfaceServerResponse] of [web/Server]
    is not among the sources.  The spec gives a device response the shape
    [{status: {code, message}, body}]; [new InterfaceServerResponse(code, message)]
    fills the status and leaves the body out. *)
Record InterfaceServerResponse : Type := mkResponse {
  status_code : Z;
  status_message : string;
  body : option string;
}.

Definition new_InterfaceServerResponse (code : Z) (msg : string) : InterfaceServerResponse :=
  mkResponse code msg None.

(** The body of a state write: [{ isOn: val, latch: val ? 7000 : undefined }]. *)
Record PutBody : Type := mkPutBody {
  put_isOn : bool;
  put_latch : option Z;
}.

(** What a status read answers: an object whose [hasFault] may be missing;
    [None] at the outer level is an answer of [undefined]. *)
Record Device : Type := mkDevice { hasFault : option bool }.

Definition js_truthy (b : option bool) : bool :=
  match b with Some true => true | _ => false end.

(** References to live-state objects. *)
Definition ref := nat.

(** The handle kept in [_pollTimer]. *)
Inductive TimerRef : Type :=
| TUndefined
| TNull
| THandle (h : nat).

(** ** The world: shared objects, pending timers, and the trace *)

Inductive LogLevel : Type := LogInfo | LogDebug | LogError.

Inductive Event : Type :=
| Log (lvl : LogLevel) (msg : string)
| EvGetItemById (id : Z)
| EvPutDevice (connectionId : JsString) (path : string) (b : PutBody)
| EvGetDevice (connectionId : JsString) (path : string)
| EvLoggerReject (msg : string)
| EvClearTimeout (h : TimerRef)
| EvSetTimeout (h : nat) (delay : Z).

Record World : Type := mkWorld {
  live : ref -> CircuitState.t;     (* the live-state objects *)
  trace : list Event;               (* oldest first *)
  timers : list (nat * Z);          (* pending timeouts: handle, delay *)
  nextTimer : nat;                  (* next handle [setTimeout] hands out *)
}.

(** The collaborators of the source that are not part of it. *)
Record Env : Type := mkEnv {
  (* state.circuits.getItemById(id) *)
  getItemById : Z -> outcome ref;
  (* NixieEquipment.putDeviceService(connectionId, path, body) *)
  putDeviceService : JsString -> string -> PutBody -> outcome InterfaceServerResponse;
  (* NixieEquipment.getDeviceService(connectionId, path) *)
  getDeviceService : JsString -> string -> outcome (option Device);
  (* the promise logger.reject(msg) returns *)
  logger_reject : string -> outcome unit;
}.

Definition emit (e : Event) (w : World) : World :=
  mkWorld (live w) (trace w ++ [e]) (timers w) (nextTimer w).

Definition logger_info (msg : string) : World -> World := emit (Log LogInfo msg).
Definition logger_debug (msg : string) : World -> World := emit (Log LogDebug msg).
Definition logger_error (msg : string) : World -> World := emit (Log LogError msg).

(** In-place update of the object behind a reference. *)
Definition update_live (r : ref) (f : CircuitState.t -> CircuitState.t) (w : World) : World :=
  mkWorld (fun r' => if decide (r' = r) then f (live w r') else live w r')
          (trace w) (timers w) (nextTimer w).

(** [clearTimeout(h)]: a handle that is not pending, [null] and [undefined]
    are ignored. *)
Definition clearTimeout (h : TimerRef) (w : World) : World :=
  let pending :=
    match h with
    | THandle n => filter (fun t => t.1 ≠ n) (timers w)
    | _ => timers w
    end in
  mkWorld (live w) (trace w ++ [EvClearTimeout h]) pending (nextTimer w).

(** [setTimeout(callback, delay)] for the poll callback: arms a new timeout
    and returns its handle. *)
Definition setTimeout (delay : Z) (w : World) : nat * World :=
  let h := nextTimer w in
  (h, mkWorld (live w) (trace w ++ [EvSetTimeout h delay])
              (timers w ++ [(h, delay)]) (S h)).

(** ** Asynchronous computations *)

Definition Async (A : Type) : Type := World -> World * outcome A.

Definition ret {A} (a : A) : Async A := fun w => (w, Resolved a).

(** [await m] followed by [k]: a rejection of [m] leaves the sequence. *)
Definition bind {A B} (m : Async A) (k : A -> Async B) : Async B :=
  fun w =>
    match m w with
    | (w', Resolved a) => k a w'
    | (w', Rejected e) => (w', Rejected e)
    end.

(** [try { m } catch (err) { h err }]. *)
Definition try_catch {A} (m : Async A) (h : JsError -> Async A) : Async A :=
  fun w =>
    match m w with
    | (w', Resolved a) => (w', Resolved a)
    | (w', Rejected e) => h e w'
    end.

(** A call of a collaborator, recorded in the trace. *)
Definition call {A} (e : Event) (r : outcome A) : Async A :=
  fun w => (emit e w, r).

Notation "x <- m ;; k" := (bind m (fun x => k))
  (at level 100, m at next level, right associativity).

(** Modelled from the spec: [utils.isNullOrEmpty] is declared in [Constants],
    which is not among the sources.  The spec calls a unit virtual when either
    binding field is absent or empty, so the helper answers true for
    [undefined], [null] and the empty string. *)
Definition isNullOrEmpty (v : JsString) : bool :=
  match v with
  | JsUndefined | JsNull => true
  | JsStr s => if decide (s = "") then true else false
  end.

(** ** class NixieCircuit *)

Module NixieCircuit.
Record t : Type := mk { circuit : Circuit.t }.

(** [get id()]: a unit built from a config always has one, so the [-1] of
    the getter's other branch does not arise. *)
Definition id (this : t) : Z := Circuit.id (circuit this).

(** [setCircuitAsync(data)]: the body reads [this.circuit] and returns. *)
Definition setCircuitAsync {Data : Type} (this : t) (data : Data) : Async unit :=
  fun w => let circuit := circuit this in (w, Resolved tt).

(** The test of line 102. *)
Definition is_virtual (c : Circuit.t) : bool :=
  isNullOrEmpty (Circuit.connectionId c) || isNullOrEmpty (Circuit.deviceBinding c).

(** The request of line 106: the path [`/state/device/${deviceBinding}`]
    and the body [{ isOn: val, latch: val ? 7000 : undefined }]. *)
Definition put_path (c : Circuit.t) : string :=
  "/state/device/" +:+ js_template (Circuit.deviceBinding c).

Definition put_body (val : bool) : PutBody :=
  mkPutBody val (if val then Some 7000 else None).

(** [setCircuitStateAsync(cstate, val)].  The result is the response, or
    [None] for the [undefined] the method returns after its [catch]. *)
Definition setCircuitStateAsync (env : Env) (this : t) (cstate : ref) (val : bool)
  : Async (option InterfaceServerResponse) :=
  fun w =>
    let cs := live w cstate in
    let w1 :=
      if negb (Bool.eqb val (CircuitState.isOn cs))
      then logger_info ("NCP: Setting Circuit " +:+ CircuitState.name cs
                        +:+ " to " +:+ js_bool val) w
      else w in
    if is_virtual (circuit this) then
      (update_live cstate (CircuitState.set_isOn val) w1,
       Resolved (Some (new_InterfaceServerResponse 200 "Success")))
    else
      let conn := Circuit.connectionId (circuit this) in
      let path := put_path (circuit this) in
      let b := put_body val in
      let w2 := emit (EvPutDevice conn path b) w1 in
      match putDeviceService env conn path b with
      | Resolved res =>
          (if decide (status_code res = 200)
           then update_live cstate (CircuitState.set_isOn val) w2
           else w2,
           Resolved (Some res))
      | Rejected err =>
          (logger_error ("Nixie: Error setting circuit state "
                         +:+ pretty (CircuitState.id cs) +:+ "-" +:+ CircuitState.name cs
                         +:+ " to " +:+ js_bool val) w2,
           Resolved None)
      end.

(** [checkHardwareStatusAsync(connectionId, deviceBinding)]. *)
Definition checkHardwareStatusAsync (env : Env) (connectionId deviceBinding : JsString)
  : Async (option Device) :=
  try_catch
    (let path := "/status/device/" +:+ js_template deviceBinding in
     dev <- call (EvGetDevice connectionId path) (getDeviceService env connectionId path) ;;
     ret dev)
    (fun err w =>
       (logger_error ("Nixie Circuit checkHardwareStatusAsync: " +:+ message err) w,
        Resolved (Some (mkDevice (Some true))))).

(** The test of lines 119-120:
    [typeof x !== 'undefined' && x !== ''] on both binding fields. *)
Definition is_undefined (v : JsString) : bool :=
  match v with JsUndefined => true | _ => false end.

Definition is_empty_string (v : JsString) : bool :=
  match v with
  | JsStr s => if decide (s = "") then true else false
  | _ => false
  end.

Definition is_bound (c : Circuit.t) : bool :=
  negb (is_undefined (Circuit.connectionId c))
  && negb (is_empty_string (Circuit.connectionId c))
  && negb (is_undefined (Circuit.deviceBinding c))
  && negb (is_empty_string (Circuit.deviceBinding c)).

(** [validateSetupAsync(circuit, cstate)]. *)
Definition validateSetupAsync (env : Env) (this : t) (circuit : Circuit.t) (cstate : ref)
  : Async unit :=
  fun w =>
    if is_bound circuit then
      match checkHardwareStatusAsync env (Circuit.connectionId circuit)
              (Circuit.deviceBinding circuit) w with
      | (w1, Resolved (Some stat)) =>
          (update_live cstate
             (CircuitState.set_commStatus (if js_truthy (hasFault stat) then 1 else 0)) w1,
           Resolved tt)
      | (w1, Resolved None) =>
          (* [stat.hasFault] on undefined throws; the inner catch *)
          (update_live cstate (CircuitState.set_commStatus 1) w1, Resolved tt)
      | (w1, Rejected err) =>
          (update_live cstate (CircuitState.set_commStatus 1) w1, Resolved tt)
      end
    else
      (update_live cstate (CircuitState.set_commStatus 0) w, Resolved tt).

(** [closeAsync()]. *)
Definition closeAsync (env : Env) (this : t) : Async unit :=
  try_catch
    (cstate <- call (EvGetItemById (Circuit.id (circuit this)))
                    (getItemById env (Circuit.id (circuit this))) ;;
     _ <- setCircuitStateAsync env this cstate false ;;
     ret tt)
    (fun err w =>
       (logger_error ("Nixie Circuit closeAsync: " +:+ message err) w, Rejected err)).
End NixieCircuit.

(** ** class NixieCircuitCollection *)

Module NixieCircuitCollection.
(** The array of units with the two fields of the class. *)
Record t : Type := mk {
  items : list NixieCircuit.t;
  pollingInterval : option Z;
  _pollTimer : TimerRef;
}.

Definition set_items (l : list NixieCircuit.t) (this : t) : t :=
  mk l (pollingInterval this) (_pollTimer this).
Definition set_pollTimer (h : TimerRef) (this : t) : t :=
  mk (items this) (pollingInterval this) h.

(** [this.find(elem => elem.id === id)]. *)
Definition find_by_id (id : Z) (this : t) : option NixieCircuit.t :=
  List.find (fun elem => bool_decide (NixieCircuit.id elem = id)) (items this).

(** [setCircuitStateAsync(cstate, val)].  The [return Promise.reject(...)] of
    the miss is not awaited, so the [catch] of the method does not see it.
    After the [await] the method falls off its end: it resolves with
    [undefined], written [None]. *)
Definition setCircuitStateAsync (env : Env) (this : t) (cstate : ref) (val : bool)
  : Async (option InterfaceServerResponse) :=
  fun w =>
    let cs := live w cstate in
    match find_by_id (CircuitState.id cs) this with
    | None =>
        (w, Rejected (Error ("NCP: Circuit " +:+ pretty (CircuitState.id cs) +:+ "-"
                             +:+ CircuitState.name cs
                             +:+ " could not be found to set the state to "
                             +:+ js_bool val +:+ ".")))
    | Some c =>
        try_catch
          (_ <- NixieCircuit.setCircuitStateAsync env c cstate val ;;
           ret None)
          (fun err w' =>
             let cs' := live w' cstate in
             let msg := "NCP: setCircuitStateAsync " +:+ pretty (CircuitState.id cs')
                        +:+ "-" +:+ CircuitState.name cs' +:+ ": " +:+ message err in
             (_ <- call (EvLoggerReject msg) (logger_reject env msg) ;; ret None) w')
          w
    end.

(** [setCircuitAsync(circuit, data)].  Besides the collection the method
    changes the config object it was given ([circuit.master = 1]); the
    config after the call is part of the result. *)
Definition setCircuitAsync {Data : Type} (this : t) (circuit : Circuit.t) (data : Data)
  : World -> (t * Circuit.t) * World * outcome unit :=
  fun w =>
    match find_by_id (Circuit.id circuit) this with
    | None =>
        let circuit := Circuit.set_master 1 circuit in
        let c := NixieCircuit.mk circuit in
        let this := set_items (items this ++ [c]) this in
        match NixieCircuit.setCircuitAsync c data w with
        | (w1, Resolved _) =>
            (this, circuit,
             logger_debug ("NixieController: A circuit was not found for id #"
                           +:+ pretty (Circuit.id circuit) +:+ " creating circuit") w1,
             Resolved tt)
        | (w1, Rejected err) =>
            (this, circuit, logger_error ("setCircuitAsync: " +:+ message err) w1,
             Rejected err)
        end
    | Some c =>
        match NixieCircuit.setCircuitAsync c data w with
        | (w1, Resolved _) => (this, circuit, w1, Resolved tt)
        | (w1, Rejected err) =>
            (this, circuit, logger_error ("setCircuitAsync: " +:+ message err) w1,
             Rejected err)
        end
    end.

(** The loop of [initAsync]: [i] runs up to [circuits.length].
    Modelled from the spec: [CircuitCollection] of [controller/Equipment] is
    not among the sources; the spec has the config source enumerable and
    indexable by position, so it is a list and [getItemByIndex(i)] is its
    entry at position [i].  The loop never asks for a position past the end;
    the branch for it is the [catch] of the method. *)
Fixpoint initLoop (circuits : list Circuit.t) (fuel i : nat)
    (acc : list NixieCircuit.t) (w : World)
  : list NixieCircuit.t * World * outcome unit :=
  match fuel with
  | O => (acc, w, Resolved tt)
  | S fuel' =>
      match circuits !! i with
      | Some circuit =>
          if decide (Circuit.master circuit = 1) then
            let w1 := logger_info ("Initializing Nixie circuit " +:+ Circuit.name circuit) w in
            initLoop circuits fuel' (S i) (acc ++ [NixieCircuit.mk circuit]) w1
          else initLoop circuits fuel' (S i) acc w
      | None =>
          (* no entry at [i]: [circuit.master] throws, the catch rejects *)
          let err := TypeError "Cannot read properties of undefined (reading 'master')" in
          (acc, logger_error ("NixieController: Circuit initAsync: " +:+ message err) w,
           Rejected err)
      end
  end.

(** [initAsync(circuits)]: [this.length = 0], then the loop. *)
Definition initAsync (this : t) (circuits : list Circuit.t)
  : World -> t * World * outcome unit :=
  fun w =>
    let '(l, w', r) := initLoop circuits (length circuits) 0 [] w in
    (set_items l this, w', r).

(** The loop of [closeAsync]: [n] is [i + 1], the index runs from
    [this.length - 1] down to [0]; [this.splice(i, 1)] removes position [i]. *)
Fixpoint closeLoop (env : Env) (n : nat) (l : list NixieCircuit.t) (w : World)
  : list NixieCircuit.t * World :=
  match n with
  | O => (l, w)
  | S i =>
      match l !! i with
      | Some u =>
          match NixieCircuit.closeAsync env u w with
          | (w1, Resolved _) => closeLoop env i (delete i l) w1
          | (w1, Rejected err) =>
              closeLoop env i l
                (logger_error ("Error stopping Nixie Circuit " +:+ js_error_string err) w1)
          end
      | None =>
          (* [this[i]] is undefined: the call throws inside the inner try *)
          let err := TypeError "Cannot read properties of undefined (reading 'closeAsync')" in
          closeLoop env i l
            (logger_error ("Error stopping Nixie Circuit " +:+ js_error_string err) w)
      end
  end.

(** [closeAsync()]. *)
Definition closeAsync (env : Env) (this : t) : World -> t * World * outcome unit :=
  fun w =>
    let '(l, w') := closeLoop env (length (items this)) (items this) w in
    (set_items l this, w', Resolved tt).

(** [initCircuitAsync(circuit)]. *)
Definition initCircuitAsync (this : t) (circuit : Circuit.t)
  : World -> t * World * outcome NixieCircuit.t :=
  fun w =>
    match find_by_id (Circuit.id circuit) this with
    | None =>
        let c := NixieCircuit.mk circuit in
        (set_items (items this ++ [c]) this, w, Resolved c)
    | Some c => (this, w, Resolved c)
    end.

(** [pollCircuitsAsync()] around a revalidation pass.  [pass] is how the
    statements placed in the [try] block after the timer is cleared end;
    the [catch] and the [finally] are those of the source. *)
Definition pollCircuitsAsync_with (pass : outcome unit) (this : t)
  : World -> t * World * outcome unit :=
  fun w =>
    (* try *)
    let w1 :=
      match _pollTimer this with
      | TUndefined => w
      | h => clearTimeout h w
      end in
    let this1 := set_pollTimer TNull this in
    let '(w2, r) :=
      match pass with
      | Resolved _ => (w1, Resolved tt)
      | Rejected err =>
          (logger_error ("Error polling circuits: " +:+ message err) w1, Rejected err)
      end in
    (* finally *)
    let '(h, w3) := setTimeout (js_or (pollingInterval this1) 10000) w2 in
    (set_pollTimer (THandle h) this1, w3, r).

(** [pollCircuitsAsync()] as the source has it: the [try] block holds
    nothing after [let success = false]. *)
Definition pollCircuitsAsync (this : t) : World -> t * World * outcome unit :=
  pollCircuitsAsync_with (Resolved tt) this.
End NixieCircuitCollection.

(** ** Vocabulary of the statements *)

(** A binding field that is [undefined] or the empty string. *)
Definition undefined_or_empty (v : JsString) : bool :=
  match v with
  | JsUndefined => true
  | JsNull => false
  | JsStr s => if decide (s = "") then true else false
  end.

(** A config with no usable binding in the words of the setup check:
    [connectionId] or [deviceBinding] is undefined or empty.  The test the
    source makes is [NixieCircuit.is_bound]. *)
Definition unbound (c : Circuit.t) : bool :=
  undefined_or_empty (Circuit.connectionId c)
  || undefined_or_empty (Circuit.deviceBinding c).

(** A binding field that is absent ([undefined] or [null]) or empty, in the
    words of the statement of the state write. *)
Definition absent_or_empty (v : JsString) : bool :=
  match v with
  | JsUndefined => true
  | JsNull => true
  | JsStr s => bool_decide (s = "")
  end.

(** The requests sent to the device service, in order. *)
Definition is_device_call (e : Event) : bool :=
  match e with
  | EvPutDevice _ _ _ | EvGetDevice _ _ => true
  | _ => false
  end.

Definition device_calls (tr : list Event) : list Event :=
  List.filter is_device_call tr.

(** The ids looked up in the live-state store, in order.  A unit's
    [closeAsync] starts with the lookup of its own id. *)
Definition lookups (tr : list Event) : list Z :=
  omap (fun e => match e with EvGetItemById i => Some i | _ => None end) tr.

(** The lines the collection writes for units that failed to close. *)
Definition stop_error (err : JsError) : Event :=
  Log LogError ("Error stopping Nixie Circuit " +:+ js_error_string err).

Definition is_stop_error (e : Event) : bool :=
  match e with
  | Log LogError msg => String.prefix "Error stopping Nixie Circuit " msg
  | _ => false
  end.

Definition stop_errors (tr : list Event) : list Event :=
  List.filter is_stop_error tr.

(** Whether [closeAsync] of a unit rejects. *)
Definition close_rejects (env : Env) (w : World) (u : NixieCircuit.t) : bool :=
  is_rejected (NixieCircuit.closeAsync env u w).2.

(** The number of units of a collection with a given id. *)
Definition count_id (id : Z) (this : NixieCircuitCollection.t) : nat :=
  length (List.filter (fun u => bool_decide (NixieCircuit.id u = id))
            (NixieCircuitCollection.items this)).

(** Every unit of the collection wraps a config flagged master. *)
Definition all_master (this : NixieCircuitCollection.t) : Prop :=
  Forall (fun u => Circuit.master (NixieCircuit.circuit u) = 1)
         (NixieCircuitCollection.items this).

(** The only timeout that may be pending is the one [_pollTimer] holds. *)
Definition poll_inv (this : NixieCircuitCollection.t) (w : World) : Prop :=
  Forall (fun t => NixieCircuitCollection._pollTimer this = THandle t.1) (timers w).

(** The units [initAsync] is to build from a config list. *)
Definition master_units (circuits : list Circuit.t) : list NixieCircuit.t :=
  List.map NixieCircuit.mk
    (List.filter (fun c => bool_decide (Circuit.master c = 1)) circuits).

(** The report the collection writes for one unit: a line when its close
    rejects, nothing otherwise. *)
Definition stop_report (env : Env) (w : World) (u : NixieCircuit.t) : list Event :=
  match (NixieCircuit.closeAsync env u w).2 with
  | Rejected err => [stop_error err]
  | Resolved _ => []
  end.

(** Events that are neither a live-state lookup nor a failed-close line. *)
Definition quiet (e : Event) : Prop :=
  is_stop_error e = false /\ match e with EvGetItemById _ => False | _ => True end.

(** ** Sample inputs *)

(** Every live-state object is that of circuit 5, currently off. *)
Definition world_off : World :=
  mkWorld (fun _ => CircuitState.mk 5 "Pool" false 0) [] [] 0.

(** The same with the circuit on and one poll timeout pending. *)
Definition world_polling : World :=
  mkWorld (fun _ => CircuitState.mk 5 "Pool" true 0) [] [(3%nat, 2000)] 4.

Definition response_503 : InterfaceServerResponse :=
  mkResponse 503 "Service Unavailable" None.

(** A device service that answers every write with 503 and every status
    read with a fault-free device. *)
Definition env_503 : Env :=
  mkEnv (fun _ => Resolved 0%nat)
        (fun _ _ _ => Resolved response_503)
        (fun _ _ => Resolved (Some (mkDevice (Some false))))
        (fun msg => Rejected (Error msg)).

(** A live-state store whose lookup throws. *)
Definition env_lookup_fails : Env :=
  mkEnv (fun _ => Rejected (Error "state unavailable"))
        (fun _ _ _ => Resolved (new_InterfaceServerResponse 200 "OK"))
        (fun _ _ => Resolved (Some (mkDevice (Some false))))
        (fun msg => Rejected (Error msg)).

(** A live-state store whose lookup throws for circuit 2 only. *)
Definition env_lookup_fails_for_2 : Env :=
  mkEnv (fun i => if decide (i = 2) then Rejected (Error "state unavailable")
                  else Resolved 0%nat)
        (fun _ _ _ => Resolved (new_InterfaceServerResponse 200 "OK"))
        (fun _ _ => Resolved (Some (mkDevice (Some false))))
        (fun msg => Rejected (Error msg)).

Definition pool5 : Circuit.t := Circuit.mk 5 "Pool" 1 (JsStr "c1") (JsStr "b1").
Definition aux7 : Circuit.t := Circuit.mk 7 "Aux" 0 JsUndefined JsUndefined.
Definition virtual_circuit (id : Z) : Circuit.t :=
  Circuit.mk id "Virtual" 1 JsUndefined JsUndefined.

Definition empty_collection : NixieCircuitCollection.t :=
  NixieCircuitCollection.mk [] (Some 2000) TNull.

Definition pool_collection : NixieCircuitCollection.t :=
  NixieCircuitCollection.mk [NixieCircuit.mk pool5] (Some 2000) (THandle 3).

Definition zero_interval_collection : NixieCircuitCollection.t :=
  NixieCircuitCollection.mk [] (Some 0) TNull.

Definition three_units : NixieCircuitCollection.t :=
  NixieCircuitCollection.mk
    [NixieCircuit.mk (virtual_circuit 1); NixieCircuit.mk (virtual_circuit 2);
     NixieCircuit.mk (virtual_circuit 3)] (Some 2000) TNull.

Definition five_configs : list Circuit.t :=
  [Circuit.mk 1 "a" 0 JsUndefined JsUndefined;
   Circuit.mk 2 "b" 1 JsUndefined JsUndefined;
   Circuit.mk 3 "c" 2 JsUndefined JsUndefined;
   Circuit.mk 4 "d" 1 (JsStr "c1") (JsStr "b1");
   Circuit.mk 5 "e" 0 JsUndefined JsUndefined].

(** ** Vocabulary of the further properties *)

(** The ids of the units are pairwise different. *)
Definition unique_ids (this : NixieCircuitCollection.t) : Prop :=
  NoDup (List.map NixieCircuit.id (NixieCircuitCollection.items this)).

(** A master entry with a given id. *)
Definition is_master_with_id (id : Z) (c : Circuit.t) : bool :=
  bool_decide (Circuit.master c = 1) && bool_decide (Circuit.id c = id).

(** The pending timeout that was armed first fires: it leaves the pending set
    and its callback, [async () => await this.pollCircuitsAsync()], runs.
    With nothing pending nothing happens. *)
Definition tick (this : NixieCircuitCollection.t) (w : World)
  : NixieCircuitCollection.t * World * outcome unit :=
  match timers w with
  | [] => (this, w, Resolved tt)
  | _ :: rest =>
      NixieCircuitCollection.pollCircuitsAsync this
        (mkWorld (live w) (trace w) rest (nextTimer w))
  end.

Fixpoint ticks (n : nat) (this : NixieCircuitCollection.t) (w : World)
  : NixieCircuitCollection.t * World :=
  match n with
  | O => (this, w)
  | S n' => let '(this', w', _) := tick this w in ticks n' this' w'
  end.

(** The timeouts armed so far, in order, with their delays. *)
Definition armed (tr : list Event) : list (nat * Z) :=
  omap (fun e => match e with EvSetTimeout h d => Some (h, d) | _ => None end) tr.

(** ** [web/interfaces/baseInterface.ts]: escapeRegex *)

(** The characters of the class [[-[\]{}()*+?.,\\^$]].  A string is a
    sequence of bytes here; the bytes of a character outside ASCII are none of
    these, so the function treats them as JavaScript treats the character. *)
Definition regex_specials : string := "-[]{}()*+?.,\^$".

Definition is_regex_special (c : Ascii.ascii) : bool :=
  existsb (Ascii.eqb c) (String.list_ascii_of_string regex_specials).

(** [escapeRegex(reg)]: [reg.replace(/[-[\]{}()*+?.,\\^$]/g, '\\$&')], every
    character of the class becomes a backslash followed by itself. *)
Fixpoint escapeRegex (reg : string) : string :=
  match reg with
  | EmptyString => EmptyString
  | String c rest =>
      if is_regex_special c then String "\"%char (String c (escapeRegex rest))
      else String c (escapeRegex rest)
  end.

(** Reading an escaped string back: a backslash stands for the character
    after it.  Not part of the source; it states that escaping loses
    nothing. *)
Fixpoint unescapeRegex (s : string) : string :=
  match s with
  | EmptyString => EmptyString
  | String c rest =>
      if Ascii.eqb c "\"%char then
        match rest with
        | EmptyString => EmptyString
        | String d rest' => String d (unescapeRegex rest')
        end
      else String c (unescapeRegex rest)
  end.


(** ** [app.ts]: start-up, shutdown and packet capture *)

Module App.
(** The [app] part of the log section: the flag the source sets and the
    other settings, which it leaves alone. *)
Record LogApp : Type := mkLogApp {
  captureForReplay : option bool;
  app_settings : list (string * string);
}.

(** What [config.getSection('log')] answers: [app] may be missing. *)
Record LogSection : Type := mkLogSection {
  app : option LogApp;
  section_settings : list (string * string);
}.

(** The calls of [app.ts] into the other modules that return no value. *)
Inductive Step : Type :=
| ConfigInit | LoggerInit | ConnInit | SysInit | StateInit | WebAppInit | SysStart
| SysStop | StateStop | ConnStop | WebAppStop | ConfigUpdate | LoggerStop
| SetSection (name : string) (value : LogSection)
| StartCaptureForReplay (bResetLogs : bool)
| ResetSystem
| StopCaptureForReplay.

Inductive AppEvent : Type :=
| Call (s : Step)
| GetSection (name : string)
| ConsoleLog (msg : string)
| ConsoleError (msg : string)
| ProcessExit.

(** How the other modules answer.  For a call the source does not await
    ([config.update()], [config.setSection], [logger.startCaptureForReplay],
    [sys.resetSystem]) a rejection stands for the call throwing. *)
Record Env : Type := mkEnv {
  step : Step -> outcome unit;
  getSection : string -> outcome LogSection;
}.

(** How a function of [app.ts] ends: its promise settles, or the process
    has exited. *)
Inductive ending : Type :=
| Settled (r : outcome unit)
| Exited.

(** A computation over the trace of calls. *)
Definition M (A : Type) : Type := list AppEvent -> list AppEvent * outcome A.

Definition call (env : Env) (s : Step) : M unit :=
  fun tr => (tr ++ [Call s], step env s).

Definition andThen {A B} (m : M A) (k : A -> M B) : M B :=
  fun tr =>
    match m tr with
    | (tr', Resolved a) => k a tr'
    | (tr', Rejected e) => (tr', Rejected e)
    end.

Definition catch {A} (m : M A) (h : JsError -> M A) : M A :=
  fun tr =>
    match m tr with
    | (tr', Resolved a) => (tr', Resolved a)
    | (tr', Rejected e) => h e tr'
    end.

Definition console_log (msg : string) : M unit :=
  fun tr => (tr ++ [ConsoleLog msg], Resolved tt).

Definition console_error (msg : string) : M unit :=
  fun tr => (tr ++ [ConsoleError msg], Resolved tt).

Notation "m1 ;;; m2" := (andThen m1 (fun _ => m2))
  (at level 100, right associativity).

(** [initAsync()]. *)
Definition initAsync (env : Env) : M unit :=
  catch
    (call env ConfigInit ;;;
     call env LoggerInit ;;;
     call env ConnInit ;;;
     call env SysInit ;;;
     call env StateInit ;;;
     call env WebAppInit ;;;
     call env SysStart)
    (fun err => console_log ("Error Initializing nodejs-PoolController " +:+ message err)).

(** [log.app.captureForReplay = v] on the section that was read; with no
    [app] the assignment throws. *)
Definition set_captureForReplay (v : bool) (log : LogSection) : outcome LogSection :=
  match app log with
  | Some a =>
      Resolved (mkLogSection (Some (mkLogApp (Some v) (app_settings a)))
                  (section_settings log))
  | None =>
      Rejected (TypeError "Cannot set properties of undefined (setting 'captureForReplay')")
  end.

Definition get_section (env : Env) (name : string) : M LogSection :=
  fun tr => (tr ++ [GetSection name], getSection env name).

Definition lift {A} (r : outcome A) : M A := fun tr => (tr, r).

(** [startPacketCapture(bResetLogs)]. *)
Definition startPacketCapture (env : Env) (bResetLogs : bool) : M unit :=
  catch
    (andThen (get_section env "log") (fun log =>
     andThen (lift (set_captureForReplay true log)) (fun log =>
     call env (SetSection "log" log) ;;;
     call env (StartCaptureForReplay bResetLogs) ;;;
     if bResetLogs then call env ResetSystem else lift (Resolved tt))))
    (fun err => console_error ("Error starting replay: " +:+ message err)).

(** [stopPacketCaptureAsync()]: no handler, and the promise of
    [logger.stopCaptureForReplayAsync()] is the result. *)
Definition stopPacketCaptureAsync (env : Env) : M unit :=
  andThen (get_section env "log") (fun log =>
  andThen (lift (set_captureForReplay false log)) (fun log =>
  call env (SetSection "log" log) ;;;
  call env StopCaptureForReplay)).

(** [stopAsync()]: the [finally] block ends the process. *)
Definition stopAsync (env : Env) : list AppEvent -> list AppEvent * ending :=
  fun tr =>
    let '(tr', _) :=
      catch
        (console_log "Shutting down open processes" ;;;
         call env SysStop ;;;
         call env StateStop ;;;
         call env ConnStop ;;;
         call env WebAppStop ;;;
         call env ConfigUpdate ;;;
         call env LoggerStop)
        (fun err => console_error ("Error stopping processes: " +:+ message err))
        tr in
    (tr' ++ [ProcessExit], Exited).

(** The steps of a list that run when each is awaited in turn: all up to and
    including the first that fails. *)
Fixpoint until_failure (env : Env) (steps : list Step) : list Step :=
  match steps with
  | [] => []
  | s :: rest =>
      s :: match step env s with
           | Resolved _ => until_failure env rest
           | Rejected _ => []
           end
  end.

(** The error of the first step that fails, if one does. *)
Fixpoint first_error (env : Env) (steps : list Step) : option JsError :=
  match steps with
  | [] => None
  | s :: rest =>
      match step env s with
      | Resolved _ => first_error env rest
      | Rejected e => Some e
      end
  end.

Definition init_steps : list Step :=
  [ConfigInit; LoggerInit; ConnInit; SysInit; StateInit; WebAppInit; SysStart].

Definition stop_steps : list Step :=
  [SysStop; StateStop; ConnStop; WebAppStop; ConfigUpdate; LoggerStop].
End App.

(** ** Further sample inputs *)

(** A device service that accepts every write and a store whose lookup
    always answers. *)
Definition env_ok : Env :=
  mkEnv (fun _ => Resolved 0%nat)
        (fun _ _ _ => Resolved (new_InterfaceServerResponse 200 "OK"))
        (fun _ _ => Resolved (Some (mkDevice (Some false))))
        (fun msg => Rejected (Error msg)).

(** * Properties *)

(** ** The world and the trace *)

Lemma live_update_same r f w : live (update_live r f w) r = f (live w r).
Proof. unfold update_live; simpl. by rewrite decide_True. Qed.

Lemma live_update_other r r' f w : r' ≠ r -> live (update_live r f w) r' = live w r'.
Proof. intros Hne. unfold update_live; simpl. by rewrite decide_False. Qed.

Lemma trace_update r f w : trace (update_live r f w) = trace w.
Proof. reflexivity. Qed.

Lemma live_emit e w : live (emit e w) = live w.
Proof. reflexivity. Qed.

Lemma trace_emit e w : trace (emit e w) = trace w ++ [e].
Proof. reflexivity. Qed.

Lemma lookups_app tr1 tr2 : lookups (tr1 ++ tr2) = lookups tr1 ++ lookups tr2.
Proof. unfold lookups. apply omap_app. Qed.

Lemma stop_errors_app tr1 tr2 :
  stop_errors (tr1 ++ tr2) = stop_errors tr1 ++ stop_errors tr2.
Proof. unfold stop_errors. apply List.filter_app. Qed.

Lemma lookups_quiet evs : Forall quiet evs -> lookups evs = [].
Proof.
  induction 1 as [|e evs [_ He] _ IH]; [done|].
  unfold lookups in *. cbn. rewrite IH. by destruct e.
Qed.

Lemma stop_errors_quiet evs : Forall quiet evs -> stop_errors evs = [].
Proof.
  induction 1 as [|e evs [He _] _ IH]; [done|].
  unfold stop_errors in *. cbn. by rewrite He, IH.
Qed.

Lemma lookups_lookup i evs : lookups (EvGetItemById i :: evs) = i :: lookups evs.
Proof. reflexivity. Qed.

Lemma stop_errors_lookup i evs : stop_errors (EvGetItemById i :: evs) = stop_errors evs.
Proof. reflexivity. Qed.

Lemma lookups_stop_error err : lookups [stop_error err] = [].
Proof. reflexivity. Qed.

Lemma stop_errors_stop_error err : stop_errors [stop_error err] = [stop_error err].
Proof. by destruct err. Qed.

Lemma take_delete_here {A} (l : list A) i :
  (i < length l)%nat -> take i (delete i l) = take i l.
Proof.
  intros Hi. rewrite delete_take_drop.
  apply take_app_length'. rewrite length_take. lia.
Qed.

Lemma drop_delete_here {A} (l : list A) i :
  (i < length l)%nat -> drop i (delete i l) = drop (S i) l.
Proof.
  intros Hi. rewrite delete_take_drop.
  apply drop_app_length'. rewrite length_take. lia.
Qed.

(** ** NixieCircuit *)

(** The test of [validateSetupAsync] is the negation of "undefined or empty"
    on either field. *)
Lemma unbound_is_bound c : NixieCircuit.is_bound c = negb (unbound c).
Proof.
  unfold NixieCircuit.is_bound, unbound, undefined_or_empty,
    NixieCircuit.is_undefined, NixieCircuit.is_empty_string.
  destruct (Circuit.connectionId c) as [| |s1], (Circuit.deviceBinding c) as [| |s2];
    repeat case_decide; reflexivity.
Qed.

(** The unit's state write never rejects: every failure ends in its [catch]. *)
Lemma unit_setCircuitState_resolves env this cstate val w :
  exists res, (NixieCircuit.setCircuitStateAsync env this cstate val w).2 = Resolved res.
Proof.
  unfold NixieCircuit.setCircuitStateAsync.
  destruct (NixieCircuit.is_virtual _); [eauto|].
  destruct (putDeviceService _ _ _ _); simpl; eauto.
Qed.

(** What the state write adds to the trace holds no lookup and no
    failed-close line. *)
Lemma unit_setCircuitState_trace env this cstate val w :
  exists evs,
    trace (NixieCircuit.setCircuitStateAsync env this cstate val w).1 = trace w ++ evs
    /\ Forall quiet evs.
Proof.
  unfold NixieCircuit.setCircuitStateAsync.
  set (w1 := if negb _ then _ else w).
  assert (H1 : exists evs, trace w1 = trace w ++ evs /\ Forall quiet evs).
  { subst w1. destruct (negb _).
    - eexists [_]. split; [apply trace_emit|]. by repeat constructor.
    - exists []. by rewrite app_nil_r. }
  destruct H1 as (evs & Htr & Hq). clearbody w1.
  destruct (NixieCircuit.is_virtual _); cbn [fst].
  - exists evs. by rewrite trace_update.
  - destruct (putDeviceService _ _ _ _) as [res|err]; cbn [fst].
    + eexists (evs ++ [_]). split.
      * case_decide; rewrite ?trace_update, trace_emit, Htr, <- app_assoc; done.
      * apply Forall_app. split; [done|]. by repeat constructor.
    + eexists (evs ++ [_; _]). split.
      * unfold logger_error. rewrite !trace_emit, Htr, <- !app_assoc. done.
      * apply Forall_app. split; [done|]. by repeat constructor.
Qed.

(** The state write touches no other live-state object, and of its own
    object only [isOn]. *)
Lemma unit_setCircuitState_frame env this cstate val w r :
  let w' := (NixieCircuit.setCircuitStateAsync env this cstate val w).1 in
  (r ≠ cstate -> live w' r = live w r)
  /\ CircuitState.commStatus (live w' cstate) = CircuitState.commStatus (live w cstate).
Proof.
  intros w'. subst w'. unfold NixieCircuit.setCircuitStateAsync.
  set (w1 := if negb _ then _ else w).
  assert (Hlive : live w1 = live w) by (subst w1; by destruct (negb _)).
  clearbody w1.
  destruct (NixieCircuit.is_virtual _); cbn [fst].
  - split; [intros Hne; by rewrite live_update_other, Hlive|].
    by rewrite live_update_same, Hlive.
  - destruct (putDeviceService _ _ _ _) as [res|err]; cbn [fst].
    + case_decide.
      * split; [intros Hne; by rewrite live_update_other, live_emit, Hlive|].
        by rewrite live_update_same, live_emit, Hlive.
      * by rewrite live_emit, Hlive.
    + unfold logger_error. by rewrite !live_emit, Hlive.
Qed.

(** Whether a unit's close rejects is decided by the lookup of its state. *)
Lemma unit_close_rejects env u w :
  close_rejects env w u = is_rejected (getItemById env (NixieCircuit.id u)).
Proof.
  unfold close_rejects, NixieCircuit.closeAsync, try_catch, bind, call, ret, NixieCircuit.id.
  destruct (getItemById env _) as [cstate|err]; [|done].
  destruct (unit_setCircuitState_resolves env u cstate false
              (emit (EvGetItemById (Circuit.id (NixieCircuit.circuit u))) w)) as [res Hres].
  destruct (NixieCircuit.setCircuitStateAsync _ _ _ _ _) as [w2 r].
  simpl in *. by subst r.
Qed.

Lemma close_rejects_indep env w w' u : close_rejects env w u = close_rejects env w' u.
Proof. by rewrite !unit_close_rejects. Qed.

Lemma stop_report_indep env w w' u : stop_report env w u = stop_report env w' u.
Proof.
  unfold stop_report, NixieCircuit.closeAsync, try_catch, bind, call, ret.
  destruct (getItemById env _) as [cstate|err]; [|done].
  destruct (unit_setCircuitState_resolves env u cstate false
              (emit (EvGetItemById (Circuit.id (NixieCircuit.circuit u))) w)) as [res Hres].
  destruct (unit_setCircuitState_resolves env u cstate false
              (emit (EvGetItemById (Circuit.id (NixieCircuit.circuit u))) w')) as [res' Hres'].
  destruct (NixieCircuit.setCircuitStateAsync _ _ _ _ (emit _ w)) as [w2 r].
  destruct (NixieCircuit.setCircuitStateAsync _ _ _ _ (emit _ w')) as [w2' r'].
  simpl in *. by subst.
Qed.

(** A unit's close starts with the lookup of its id; nothing after it is a
    lookup or a failed-close line. *)
Lemma unit_close_trace env u w :
  exists evs,
    trace (NixieCircuit.closeAsync env u w).1
      = trace w ++ EvGetItemById (NixieCircuit.id u) :: evs
    /\ Forall quiet evs.
Proof.
  unfold NixieCircuit.closeAsync, try_catch, bind, call, ret, NixieCircuit.id.
  set (i := Circuit.id (NixieCircuit.circuit u)).
  destruct (getItemById env i) as [cstate|err].
  - destruct (unit_setCircuitState_trace env u cstate false (emit (EvGetItemById i) w))
      as (evs & Htr & Hq).
    destruct (unit_setCircuitState_resolves env u cstate false (emit (EvGetItemById i) w))
      as [res Hres].
    destruct (NixieCircuit.setCircuitStateAsync _ _ _ _ _) as [w2 r].
    simpl in *. subst r. simpl. exists evs. split; [|done].
    by rewrite Htr, <- app_assoc.
  - simpl. eexists [_]. split.
    + by rewrite <- app_assoc.
    + by repeat constructor.
Qed.

(** The test of line 102 is "absent or empty" on either binding field. *)
Lemma absent_or_empty_is_virtual c :
  NixieCircuit.is_virtual c
  = absent_or_empty (Circuit.connectionId c) || absent_or_empty (Circuit.deviceBinding c).
Proof.
  unfold NixieCircuit.is_virtual, isNullOrEmpty, absent_or_empty.
  destruct (Circuit.connectionId c) as [| |s1], (Circuit.deviceBinding c) as [| |s2];
    repeat case_decide; repeat case_bool_decide; done.
Qed.

(** The trace, the result and [isOn] after a state write. *)
Lemma unit_setCircuitState_spec env this cstate val w :
  let c := NixieCircuit.circuit this in
  let cs := live w cstate in
  let out := NixieCircuit.setCircuitStateAsync env this cstate val w in
  let announce :=
    if negb (Bool.eqb val (CircuitState.isOn cs))
    then [Log LogInfo ("NCP: Setting Circuit " +:+ CircuitState.name cs
                       +:+ " to " +:+ js_bool val)]
    else [] in
  let path := "/state/device/" +:+ js_template (Circuit.deviceBinding c) in
  let sent := mkPutBody val (if val then Some 7000 else None) in
  let request := EvPutDevice (Circuit.connectionId c) path sent in
  if absent_or_empty (Circuit.connectionId c) || absent_or_empty (Circuit.deviceBinding c)
  then
    CircuitState.isOn (live out.1 cstate) = val
    /\ out.2 = Resolved (Some (mkResponse 200 "Success" None))
    /\ trace out.1 = trace w ++ announce
  else
    match putDeviceService env (Circuit.connectionId c) path sent with
    | Resolved res =>
        out.2 = Resolved (Some res)
        /\ CircuitState.isOn (live out.1 cstate)
           = (if decide (status_code res = 200) then val else CircuitState.isOn cs)
        /\ trace out.1 = trace w ++ announce ++ [request]
    | Rejected err =>
        out.2 = Resolved None
        /\ CircuitState.isOn (live out.1 cstate) = CircuitState.isOn cs
        /\ trace out.1
           = trace w ++ announce
             ++ [request;
                 Log LogError ("Nixie: Error setting circuit state "
                               +:+ pretty (CircuitState.id cs) +:+ "-"
                               +:+ CircuitState.name cs +:+ " to " +:+ js_bool val)]
    end.
Proof.
  intros c cs out announce path sent request. subst out.
  rewrite <- absent_or_empty_is_virtual.
  unfold NixieCircuit.setCircuitStateAsync.
  fold c. fold cs.
  change (NixieCircuit.put_path c) with path.
  change (NixieCircuit.put_body val) with sent.
  set (w1 := if negb _ then _ else w).
  assert (Hlive : live w1 = live w) by (subst w1; by destruct (negb _)).
  assert (Htr : trace w1 = trace w ++ announce).
  { subst w1 announce. destruct (negb _); [done|]. by rewrite app_nil_r. }
  clearbody w1.
  destruct (NixieCircuit.is_virtual c).
  - cbn [fst snd]. rewrite live_update_same, trace_update. done.
  - destruct (putDeviceService env _ _ _) as [res|err]; cbn [fst snd].
    + split; [done|]. case_decide.
      * rewrite live_update_same, trace_update, trace_emit, Htr, <- app_assoc. done.
      * rewrite live_emit, Hlive, trace_emit, Htr, <- app_assoc. done.
    + split; [done|]. unfold logger_error.
      rewrite !live_emit, Hlive, !trace_emit, Htr, <- !app_assoc. done.
Qed.

(** C1. [NixieCircuit.setCircuitStateAsync(cstate, val)].  A unit whose
    [connectionId] or [deviceBinding] is absent or empty is virtual: it gets
    [isOn = val], the call resolves with the 200 "Success" response, and
    nothing is sent (the trace grows by the "Setting Circuit" line alone, and
    by that only when [val] differs from [isOn]).  Every other unit is bound:
    it sends exactly one request, the PUT on [connectionId] with path
    [/state/device/<deviceBinding>] and body [{isOn: val, latch: 7000}] for
    [val] true and [{isOn: val}] for [val] false.  When the device answers,
    the call resolves with that very response, [isOn] is [val] if the status
    code is 200 and its prior value otherwise, and no error is logged.  When
    the request throws, [isOn] keeps its prior value, the error line is
    logged, and the call resolves with [undefined], which no response
    equals. *)
Theorem setCircuitState_commits_on_confirmed_success
    (env : Env) (this : NixieCircuit.t) (cstate : ref) (val : bool) (w : World) :
  let c := NixieCircuit.circuit this in
  let cs := live w cstate in
  let out := NixieCircuit.setCircuitStateAsync env this cstate val w in
  let announce :=
    if negb (Bool.eqb val (CircuitState.isOn cs))
    then [Log LogInfo ("NCP: Setting Circuit " +:+ CircuitState.name cs
                       +:+ " to " +:+ js_bool val)]
    else [] in
  let path := "/state/device/" +:+ js_template (Circuit.deviceBinding c) in
  let sent := mkPutBody val (if val then Some 7000 else None) in
  let request := EvPutDevice (Circuit.connectionId c) path sent in
  if absent_or_empty (Circuit.connectionId c) || absent_or_empty (Circuit.deviceBinding c)
  then
    CircuitState.isOn (live out.1 cstate) = val
    /\ out.2 = Resolved (Some (mkResponse 200 "Success" None))
    /\ trace out.1 = trace w ++ announce
  else
    match putDeviceService env (Circuit.connectionId c) path sent with
    | Resolved res =>
        out.2 = Resolved (Some res)
        /\ CircuitState.isOn (live out.1 cstate)
           = (if decide (status_code res = 200) then val else CircuitState.isOn cs)
        /\ trace out.1 = trace w ++ announce ++ [request]
    | Rejected err =>
        out.2 = Resolved None
        /\ CircuitState.isOn (live out.1 cstate) = CircuitState.isOn cs
        /\ trace out.1
           = trace w ++ announce
             ++ [request;
                 Log LogError ("Nixie: Error setting circuit state "
                               +:+ pretty (CircuitState.id cs) +:+ "-"
                               +:+ CircuitState.name cs +:+ " to " +:+ js_bool val)]
    end.
Proof. intros. apply unit_setCircuitState_spec. Qed.

(** C3. [NixieCircuit.validateSetupAsync(circuit, cstate)] resolves, and
    whatever [commStatus] was before, afterwards it is 0 when [connectionId]
    or [deviceBinding] is undefined or empty; otherwise it is 1 when the
    status read throws or answers [hasFault] true (or answers nothing), and 0
    when the read answers a device whose [hasFault] is false (or missing). *)
Theorem validateSetup_sets_commStatus
    (env : Env) (this : NixieCircuit.t) (circuit : Circuit.t) (cstate : ref) (w : World) :
  let w' := (NixieCircuit.validateSetupAsync env this circuit cstate w).1 in
  let result := (NixieCircuit.validateSetupAsync env this circuit cstate w).2 in
  let check :=
    getDeviceService env (Circuit.connectionId circuit)
      ("/status/device/" +:+ js_template (Circuit.deviceBinding circuit)) in
  result = Resolved tt
  /\ CircuitState.commStatus (live w' cstate) =
       if unbound circuit then 0
       else match check with
            | Rejected _ => 1
            | Resolved None => 1
            | Resolved (Some stat) =>
                match hasFault stat with
                | Some true => 1
                | Some false | None => 0
                end
            end.
Proof.
  intros w' result check. subst w' result.
  unfold NixieCircuit.validateSetupAsync.
  rewrite unbound_is_bound.
  destruct (unbound circuit); cbn [negb fst snd].
  - rewrite live_update_same. done.
  - unfold NixieCircuit.checkHardwareStatusAsync, try_catch, bind, call, ret.
    fold check.
    destruct check as [[stat|]|err]; cbn [fst snd];
      rewrite live_update_same; try done.
    destruct stat as [[[|]|]]; done.
Qed.

(** C7, as the code has it.  [NixieCircuit.closeAsync()] first looks up the
    live state of its circuit.  When the lookup answers, the unit's
    [setCircuitStateAsync(cstate, false)] runs, whatever the state and the
    binding, and close resolves: a virtual unit is off afterwards; a bound
    unit sends the one write [{isOn: false}] and is off afterwards if the
    device answered 200; on another status code [isOn] keeps its value and
    nothing is logged for it; when the write throws [isOn] keeps its value and
    the error line of the state write is logged.  When the lookup throws, no
    state write runs and no live state changes; the error is logged by close
    and close rejects with it. *)
Theorem close_turns_off_and_rethrows
    (env : Env) (this : NixieCircuit.t) (w : World) :
  let c := NixieCircuit.circuit this in
  let id := Circuit.id c in
  let out := NixieCircuit.closeAsync env this w in
  let looked_up := trace w ++ [EvGetItemById id] in
  match getItemById env id with
  | Rejected err =>
      out.2 = Rejected err
      /\ live out.1 = live w
      /\ trace out.1
         = looked_up ++ [Log LogError ("Nixie Circuit closeAsync: " +:+ message err)]
  | Resolved cstate =>
      let cs := live w cstate in
      let announce :=
        if CircuitState.isOn cs
        then [Log LogInfo ("NCP: Setting Circuit " +:+ CircuitState.name cs +:+ " to false")]
        else [] in
      let path := "/state/device/" +:+ js_template (Circuit.deviceBinding c) in
      let request := EvPutDevice (Circuit.connectionId c) path (mkPutBody false None) in
      out = ((NixieCircuit.setCircuitStateAsync env this cstate false
                (emit (EvGetItemById id) w)).1, Resolved tt)
      /\ if absent_or_empty (Circuit.connectionId c)
            || absent_or_empty (Circuit.deviceBinding c)
         then
           CircuitState.isOn (live out.1 cstate) = false
           /\ trace out.1 = looked_up ++ announce
         else
           match putDeviceService env (Circuit.connectionId c) path (mkPutBody false None) with
           | Resolved res =>
               CircuitState.isOn (live out.1 cstate)
               = (if decide (status_code res = 200) then false else CircuitState.isOn cs)
               /\ trace out.1 = looked_up ++ announce ++ [request]
           | Rejected _ =>
               CircuitState.isOn (live out.1 cstate) = CircuitState.isOn cs
               /\ trace out.1
                  = looked_up ++ announce
                    ++ [request;
                        Log LogError ("Nixie: Error setting circuit state "
                                      +:+ pretty (CircuitState.id cs) +:+ "-"
                                      +:+ CircuitState.name cs +:+ " to false")]
           end
  end.
Proof.
  intros c id out looked_up. subst out looked_up.
  unfold NixieCircuit.closeAsync, try_catch, bind, call, ret.
  fold c. fold id.
  destruct (getItemById env id) as [cstate|err]; [|done].
  set (w1 := emit (EvGetItemById id) w).
  pose proof (unit_setCircuitState_spec env this cstate false w1) as Hspec.
  cbn zeta in Hspec. fold c in Hspec.
  change (live w1 cstate) with (live w cstate) in Hspec.
  change (trace w1) with (trace w ++ [EvGetItemById id]) in Hspec.
  cbn zeta.
  replace (negb (Bool.eqb false (CircuitState.isOn (live w cstate))))
    with (CircuitState.isOn (live w cstate)) in Hspec
    by (by destruct (CircuitState.isOn (live w cstate))).
  destruct (NixieCircuit.setCircuitStateAsync env this cstate false w1) as [w2 r].
  cbn [fst snd] in *.
  destruct (absent_or_empty _ || absent_or_empty _).
  - destruct Hspec as (Hon & -> & Htr). done.
  - destruct (putDeviceService env _ _ _) as [res|err].
    + destruct Hspec as (-> & Hon & Htr). done.
    + destruct Hspec as (-> & Hon & Htr). done.
Qed.

(** C7, the claim as stated fails: with a live-state store whose lookup
    throws, close of the unit of circuit 5 writes no state, logs the error and
    rejects; so close does not resolve on every input. *)
Lemma close_may_reject :
  NixieCircuit.closeAsync env_lookup_fails (NixieCircuit.mk pool5) world_polling
  = (mkWorld (live world_polling)
       [EvGetItemById 5; Log LogError "Nixie Circuit closeAsync: state unavailable"]
       (timers world_polling) (nextTimer world_polling),
     Rejected (Error "state unavailable"))
  /\ ~ (forall env this w, (NixieCircuit.closeAsync env this w).2 = Resolved tt).
Proof.
  split; [reflexivity|].
  intros H.
  specialize (H env_lookup_fails (NixieCircuit.mk pool5) world_polling).
  vm_compute in H. discriminate.
Qed.

(** C10. The unit's [setCircuitAsync(data)] resolves and leaves the world as
    it found it, for every [data]; and so the collection's
    [setCircuitAsync(circuit, data)], when a unit with the circuit's id
    exists, changes neither the collection, nor the config, nor the world. *)
Theorem unit_setCircuit_changes_nothing
    {Data : Type} (this : NixieCircuit.t) (data : Data) (w : World)
    (coll : NixieCircuitCollection.t) (circuit : Circuit.t) :
  NixieCircuit.setCircuitAsync this data w = (w, Resolved tt)
  /\ match NixieCircuitCollection.find_by_id (Circuit.id circuit) coll with
     | Some _ =>
         NixieCircuitCollection.setCircuitAsync coll circuit data w
         = (coll, circuit, w, Resolved tt)
     | None => True
     end.
Proof.
  split; [reflexivity|].
  unfold NixieCircuitCollection.setCircuitAsync.
  destruct (NixieCircuitCollection.find_by_id _ _); done.
Qed.

(** ** NixieCircuitCollection: lookup and state writes *)

Lemma find_by_id_None id this :
  NixieCircuitCollection.find_by_id id this = None -> count_id id this = 0%nat.
Proof.
  unfold NixieCircuitCollection.find_by_id, count_id.
  induction (NixieCircuitCollection.items this) as [|u l IH]; cbn; [done|].
  destruct (bool_decide _); [done|]. exact IH.
Qed.

Lemma find_by_id_Some id this u :
  NixieCircuitCollection.find_by_id id this = Some u ->
  NixieCircuit.id u = id /\ (1 <= count_id id this)%nat.
Proof.
  unfold NixieCircuitCollection.find_by_id, count_id.
  induction (NixieCircuitCollection.items this) as [|v l IH]; cbn; [done|].
  destruct (bool_decide _) eqn:Hv.
  - intros [= ->]. apply bool_decide_eq_true in Hv. cbn. split; [done|lia].
  - exact IH.
Qed.

Lemma find_by_id_push id l p t u :
  NixieCircuit.id u = id ->
  NixieCircuitCollection.find_by_id id (NixieCircuitCollection.mk l p t) = None ->
  NixieCircuitCollection.find_by_id id (NixieCircuitCollection.mk (l ++ [u]) p t) = Some u.
Proof.
  unfold NixieCircuitCollection.find_by_id. cbn [NixieCircuitCollection.items].
  intros Hid. induction l as [|v l IH]; cbn.
  - by rewrite bool_decide_eq_true_2.
  - destruct (bool_decide _); [done|]. exact IH.
Qed.

Lemma count_id_push id l p t u :
  count_id id (NixieCircuitCollection.mk (l ++ [u]) p t)
  = (count_id id (NixieCircuitCollection.mk l p t)
     + if bool_decide (NixieCircuit.id u = id) then 1 else 0)%nat.
Proof.
  unfold count_id. cbn [NixieCircuitCollection.items].
  rewrite List.filter_app, length_app. cbn [List.filter].
  by destruct (bool_decide _).
Qed.

(** C2, as the code has it.  [NixieCircuitCollection.setCircuitStateAsync(cstate,
    val)] looks for the unit whose id is [cstate.id].  When there is none it
    rejects, leaving the world untouched, with an [Error] whose message names
    the id, the name and the wanted value.  When there is one, the unit's
    state write runs (the world after the call is the world after that write)
    and the call resolves with [undefined]: the unit's response is not handed
    on, and since the unit's write never rejects there is no rejection to
    hand on either. *)
Theorem collection_setCircuitState_outcome
    (env : Env) (this : NixieCircuitCollection.t) (cstate : ref) (val : bool) (w : World) :
  let cs := live w cstate in
  match NixieCircuitCollection.find_by_id (CircuitState.id cs) this with
  | None =>
      NixieCircuitCollection.setCircuitStateAsync env this cstate val w
      = (w, Rejected (Error ("NCP: Circuit " +:+ pretty (CircuitState.id cs) +:+ "-"
                             +:+ CircuitState.name cs
                             +:+ " could not be found to set the state to "
                             +:+ js_bool val +:+ ".")))
  | Some c =>
      NixieCircuit.id c = CircuitState.id cs
      /\ NixieCircuitCollection.setCircuitStateAsync env this cstate val w
         = ((NixieCircuit.setCircuitStateAsync env c cstate val w).1, Resolved None)
  end.
Proof.
  intros cs. unfold NixieCircuitCollection.setCircuitStateAsync. fold cs.
  destruct (NixieCircuitCollection.find_by_id _ _) as [c|] eqn:Hfind; [|done].
  split.
  - by apply find_by_id_Some in Hfind as [Hid _].
  - unfold try_catch, bind, ret.
    destruct (unit_setCircuitState_resolves env c cstate val w) as [res Hres].
    destruct (NixieCircuit.setCircuitStateAsync env c cstate val w) as [w2 r].
    simpl in *. by subst r.
Qed.

(** C2, the claim as stated fails: circuit 5 is bound to c1/b1 and the device
    answers the write with 503.  The unit's state write resolves with the 503
    response; the collection's call on the same input resolves with
    [undefined].  So the collection does not hand on the unit's result. *)
Lemma collection_setCircuitState_drops_response :
  NixieCircuitCollection.find_by_id 5 pool_collection = Some (NixieCircuit.mk pool5)
  /\ (NixieCircuit.setCircuitStateAsync env_503 (NixieCircuit.mk pool5) 0%nat true world_off).2
     = Resolved (Some response_503)
  /\ (NixieCircuitCollection.setCircuitStateAsync env_503 pool_collection 0%nat true world_off).2
     = Resolved None
  /\ ~ (forall env this cstate val w c,
          NixieCircuitCollection.find_by_id (CircuitState.id (live w cstate)) this = Some c ->
          (NixieCircuitCollection.setCircuitStateAsync env this cstate val w).2
          = (NixieCircuit.setCircuitStateAsync env c cstate val w).2).
Proof.
  split; [reflexivity|]. split; [reflexivity|]. split; [reflexivity|].
  intros H.
  specialize (H env_503 pool_collection 0%nat true world_off (NixieCircuit.mk pool5) eq_refl).
  vm_compute in H. discriminate.
Qed.

(** ** NixieCircuitCollection: initialisation *)

Lemma master_units_cons c cs :
  master_units (c :: cs) =
  (if decide (Circuit.master c = 1) then [NixieCircuit.mk c] else []) ++ master_units cs.
Proof.
  unfold master_units. cbn [List.filter].
  destruct (decide (Circuit.master c = 1)) as [H|H].
  - by rewrite bool_decide_eq_true_2.
  - by rewrite bool_decide_eq_false_2.
Qed.

(** The loop from position [i] on appends the master entries that remain. *)
Lemma initLoop_spec circuits fuel :
  forall i acc w,
    (i + fuel)%nat = length circuits ->
    (NixieCircuitCollection.initLoop circuits fuel i acc w).1.1
      = acc ++ master_units (drop i circuits)
    /\ (NixieCircuitCollection.initLoop circuits fuel i acc w).2 = Resolved tt.
Proof.
  induction fuel as [|fuel IH]; intros i acc w Hlen; cbn [NixieCircuitCollection.initLoop].
  - rewrite drop_ge by lia. cbn. by rewrite app_nil_r.
  - destruct (circuits !! i) as [c|] eqn:Hc.
    + rewrite (drop_S _ _ _ Hc), master_units_cons.
      destruct (decide (Circuit.master c = 1)).
      * destruct (IH (S i) (acc ++ [NixieCircuit.mk c])
                    (logger_info ("Initializing Nixie circuit " +:+ Circuit.name c) w))
          as [-> ->]; [lia|]. by rewrite <- app_assoc.
      * destruct (IH (S i) acc w) as [-> ->]; [lia|]. done.
    + apply lookup_ge_None in Hc. lia.
Qed.

(** C8. [NixieCircuitCollection.initAsync(circuits)] resolves, and whatever
    the collection held before, afterwards it holds exactly one unit for each
    entry with [master === 1], in the order of the list, and none for the
    other entries; its length is the number of master entries (2 for a list
    of 5 with 2 of them master). *)
Theorem initAsync_builds_master_units
    (this : NixieCircuitCollection.t) (circuits : list Circuit.t) (w : World) :
  let this' := (NixieCircuitCollection.initAsync this circuits w).1.1 in
  let result := (NixieCircuitCollection.initAsync this circuits w).2 in
  result = Resolved tt
  /\ NixieCircuitCollection.items this' = master_units circuits
  /\ length (NixieCircuitCollection.items this')
     = length (List.filter (fun c => bool_decide (Circuit.master c = 1)) circuits).
Proof.
  intros this' result. subst this' result.
  unfold NixieCircuitCollection.initAsync.
  destruct (initLoop_spec circuits (length circuits) 0 [] w) as [Hl Hr]; [lia|].
  destruct (NixieCircuitCollection.initLoop circuits (length circuits) 0 [] w) as [[l w'] r].
  cbn in *. subst. split; [done|]. split; [done|].
  unfold master_units. by rewrite length_map.
Qed.

(** Five entries, the second and the fourth flagged master: two units, in
    that order, replace the one the collection held. *)
Example initAsync_two_of_five :
  NixieCircuitCollection.items
    (NixieCircuitCollection.initAsync pool_collection five_configs world_off).1.1
  = [NixieCircuit.mk (Circuit.mk 2 "b" 1 JsUndefined JsUndefined);
     NixieCircuit.mk (Circuit.mk 4 "d" 1 (JsStr "c1") (JsStr "b1"))].
Proof. reflexivity. Qed.

(** ** NixieCircuitCollection: the poll timer *)

Lemma poll_inv_cleared this w :
  poll_inv this w ->
  timers (match NixieCircuitCollection._pollTimer this with
          | TUndefined => w
          | h => clearTimeout h w
          end) = [].
Proof.
  unfold poll_inv. intros Hinv.
  destruct (NixieCircuitCollection._pollTimer this) as [| |h] eqn:Hh.
  - destruct (timers w) as [|t ts]; [done|]. by inversion Hinv.
  - cbn. destruct (timers w) as [|t ts]; [done|]. by inversion Hinv.
  - cbn. induction Hinv as [|t ts Ht _ IH]; [done|].
    rewrite filter_cons. inversion Ht; subst. rewrite decide_False by (intros ?; done).
    done.
Qed.

(** C5, as the code has it.  After [pollCircuitsAsync], whether the
    statements of its [try] block complete or throw: the timeout whose handle
    [_pollTimer] held, if it was pending, is cancelled; every other pending
    timeout is kept; exactly one timeout is armed, and [_pollTimer] holds it.
    Its delay is [pollingInterval || 10000]: [pollingInterval] when that is a
    number other than 0, and 10000 when it is undefined or 0.  The call
    settles as the [try] block did.  When the only timeout that may be pending
    before the call is the one [_pollTimer] holds, the new timeout is the only
    one pending after it, and this again is so for the next call. *)
Theorem pollCircuits_rearms_one_timer
    (pass : outcome unit) (this : NixieCircuitCollection.t) (w : World) :
  let this' := (NixieCircuitCollection.pollCircuitsAsync_with pass this w).1.1 in
  let w' := (NixieCircuitCollection.pollCircuitsAsync_with pass this w).1.2 in
  let result := (NixieCircuitCollection.pollCircuitsAsync_with pass this w).2 in
  let delay :=
    match NixieCircuitCollection.pollingInterval this with
    | None => 10000
    | Some n => if decide (n = 0) then 10000 else n
    end in
  let kept :=
    match NixieCircuitCollection._pollTimer this with
    | THandle h => filter (fun t => t.1 ≠ h) (timers w)
    | _ => timers w
    end in
  timers w' = kept ++ [(nextTimer w, delay)]
  /\ NixieCircuitCollection._pollTimer this' = THandle (nextTimer w)
  /\ armed (trace w') = armed (trace w) ++ [(nextTimer w, delay)]
  /\ result = pass
  /\ (poll_inv this w -> timers w' = [(nextTimer w, delay)] /\ poll_inv this' w').
Proof.
  intros this' w' result delay kept. subst this' w' result.
  unfold NixieCircuitCollection.pollCircuitsAsync_with.
  set (w1 := match NixieCircuitCollection._pollTimer this with
             | TUndefined => w | h => clearTimeout h w end).
  assert (Hkept : timers w1 = kept).
  { subst w1 kept. by destruct (NixieCircuitCollection._pollTimer this). }
  assert (Hnext : nextTimer w1 = nextTimer w).
  { subst w1. by destruct (NixieCircuitCollection._pollTimer this). }
  assert (Harmed : armed (trace w1) = armed (trace w)).
  { subst w1. unfold armed.
    destruct (NixieCircuitCollection._pollTimer this); cbn;
      rewrite ?omap_app; cbn; by rewrite ?app_nil_r. }
  assert (Hinv : poll_inv this w -> kept = []).
  { intros Hinv. rewrite <- Hkept. by apply poll_inv_cleared. }
  clearbody w1 kept.
  destruct pass as [[]|err]; cbn; rewrite Hkept, Hnext; unfold armed in *;
    rewrite !omap_app, Harmed; cbn; rewrite ?app_nil_r;
    (split; [done|]); (split; [done|]); (split; [done|]); (split; [done|]);
    intros Hi; rewrite (Hinv Hi); (split; [done|]);
    unfold poll_inv; cbn; by repeat constructor.
Qed.

(** C5, an instance: timeout 3 is pending with the collection holding its
    handle, the interval is 2000 and the pass throws.  Afterwards timeout 4 is
    the only one pending, due in 2000 ms. *)
Lemma pollCircuits_rearms_one_timer_witness :
  poll_inv pool_collection world_polling
  /\ timers (NixieCircuitCollection.pollCircuitsAsync_with
               (Rejected (Error "status check failed")) pool_collection world_polling).1.2
     = [(4%nat, 2000)].
Proof.
  assert (Hinv : poll_inv pool_collection world_polling).
  { unfold poll_inv. cbn. repeat constructor. }
  split; [exact Hinv|].
  destruct (pollCircuits_rearms_one_timer
              (Rejected (Error "status check failed")) pool_collection world_polling)
    as (_ & _ & _ & _ & H).
  exact (proj1 (H Hinv)).
Defined.

(** C5, the claim as stated fails: with [pollingInterval] set to 0 the
    timeout is armed with a delay of 10000 ms, not of [pollingInterval] (0)
    ms. *)
Lemma pollCircuits_zero_interval_waits_10000 :
  poll_inv zero_interval_collection world_off
  /\ NixieCircuitCollection.pollingInterval zero_interval_collection = Some 0
  /\ timers (NixieCircuitCollection.pollCircuitsAsync zero_interval_collection world_off).1.2
     = [(0%nat, 10000)]
  /\ timers (NixieCircuitCollection.pollCircuitsAsync zero_interval_collection world_off).1.2
     ≠ [(0%nat, 0)].
Proof.
  split; [unfold poll_inv; cbn; constructor|].
  split; [reflexivity|]. split; [reflexivity|].
  vm_compute. discriminate.
Qed.

(** ** NixieCircuitCollection: shutdown *)

(** The loop over the positions below [n]: it keeps, in order, the units among
    them whose close rejects and the units from [n] on; it closes the units
    below [n] from the last to the first, and reports each rejection. *)
Lemma closeLoop_spec env w0 n :
  forall l w,
    (n <= length l)%nat ->
    let out := NixieCircuitCollection.closeLoop env n l w in
    out.1 = List.filter (close_rejects env w0) (take n l) ++ drop n l
    /\ lookups (trace out.2) = lookups (trace w) ++ rev (List.map NixieCircuit.id (take n l))
    /\ stop_errors (trace out.2)
       = stop_errors (trace w) ++ flat_map (stop_report env w0) (rev (take n l)).
Proof.
  induction n as [|i IH]; intros l w Hlen out; subst out.
  - cbn. rewrite drop_0, !app_nil_r. done.
  - cbn [NixieCircuitCollection.closeLoop].
    destruct (l !! i) as [u|] eqn:Hu; [|apply lookup_ge_None in Hu; lia].
    rewrite (take_S_r _ _ _ Hu), List.filter_app, List.map_app, !rev_app_distr.
    cbn [List.filter List.map rev app flat_map].
    destruct (unit_close_trace env u w) as (evs & Htr & Hq).
    assert (Hrej : close_rejects env w0 u = is_rejected (NixieCircuit.closeAsync env u w).2)
      by apply (close_rejects_indep env w0 w u).
    assert (Hrep : stop_report env w0 u =
                   match (NixieCircuit.closeAsync env u w).2 with
                   | Rejected err => [stop_error err]
                   | Resolved _ => []
                   end)
      by apply (stop_report_indep env w0 w u).
    destruct (NixieCircuit.closeAsync env u w) as [w1 [[]|err]]; cbn [fst snd] in *.
    + destruct (IH (delete i l) w1) as (Hl & Hlk & Hse).
      { rewrite length_delete by eauto. lia. }
      rewrite Hl, Hlk, Hse, Htr. clear Hl Hlk Hse.
      rewrite take_delete_here, drop_delete_here by lia.
      rewrite Hrej, Hrep. cbn [app is_rejected].
      rewrite lookups_app, stop_errors_app, lookups_lookup, stop_errors_lookup.
      rewrite (lookups_quiet _ Hq), (stop_errors_quiet _ Hq).
      rewrite !app_nil_r, <- !app_assoc. done.
    + destruct (IH l (logger_error ("Error stopping Nixie Circuit " +:+ js_error_string err) w1))
        as (Hl & Hlk & Hse); [lia|].
      rewrite Hl, Hlk, Hse. clear Hl Hlk Hse.
      unfold logger_error. rewrite trace_emit, Htr.
      rewrite Hrej, Hrep. cbn [app is_rejected]. rewrite (drop_S _ _ _ Hu).
      fold (stop_error err).
      rewrite !lookups_app, !stop_errors_app, lookups_lookup, stop_errors_lookup.
      rewrite lookups_stop_error, stop_errors_stop_error.
      rewrite (lookups_quiet _ Hq), (stop_errors_quiet _ Hq).
      rewrite !app_nil_r, <- !app_assoc. done.
Qed.

(** C6. [NixieCircuitCollection.closeAsync()] always resolves.  It closes
    every unit, from the last to the first (each close starts with the lookup
    of the unit's id, and the ids looked up are those of the units in reverse
    order).  The units left in the collection are exactly those whose close
    rejected, in their order; for each of them, and for no other unit, one
    "Error stopping Nixie Circuit" line is logged.  Whether a unit's close
    rejects does not depend on the moment it is called. *)
Theorem closeAll_closes_every_unit
    (env : Env) (this : NixieCircuitCollection.t) (w : World) :
  let this' := (NixieCircuitCollection.closeAsync env this w).1.1 in
  let w' := (NixieCircuitCollection.closeAsync env this w).1.2 in
  let result := (NixieCircuitCollection.closeAsync env this w).2 in
  let units := NixieCircuitCollection.items this in
  result = Resolved tt
  /\ NixieCircuitCollection.items this' = List.filter (close_rejects env w) units
  /\ lookups (trace w') = lookups (trace w) ++ rev (List.map NixieCircuit.id units)
  /\ stop_errors (trace w')
     = stop_errors (trace w) ++ flat_map (stop_report env w) (rev units)
  /\ (forall u w1, close_rejects env w1 u = close_rejects env w u).
Proof.
  intros this' w' result units. subst this' w' result units.
  unfold NixieCircuitCollection.closeAsync.
  destruct (closeLoop_spec env w (length (NixieCircuitCollection.items this))
              (NixieCircuitCollection.items this) w) as (Hl & Hlk & Hse); [lia|].
  destruct (NixieCircuitCollection.closeLoop _ _ _ _) as [l w'].
  cbn [fst snd NixieCircuitCollection.set_items NixieCircuitCollection.items] in *.
  rewrite firstn_all, drop_all, app_nil_r in Hl.
  rewrite firstn_all in Hlk, Hse.
  split; [done|]. split; [done|]. split; [done|]. split; [done|].
  intros u w1. apply close_rejects_indep.
Qed.

(** Three virtual units; the state lookup throws for circuit 2.  All three
    are closed, last first; units 3 and 1 are removed, unit 2 stays, and the
    call resolves. *)
Example closeAll_keeps_the_failing_unit :
  let out := NixieCircuitCollection.closeAsync env_lookup_fails_for_2 three_units world_off in
  NixieCircuitCollection.items out.1.1 = [NixieCircuit.mk (virtual_circuit 2)]
  /\ lookups (trace out.1.2) = [3; 2; 1]
  /\ stop_errors (trace out.1.2)
     = [Log LogError "Error stopping Nixie Circuit Error: state unavailable"]
  /\ out.2 = Resolved tt.
Proof. vm_compute. done. Qed.

(** ** NixieCircuitCollection: the create paths *)

(** C9. Let the collection hold at most one unit with the id of [c1], and let
    [c2] have the same id.  After [initCircuitAsync(c1)] the collection holds
    exactly one unit with that id; a following [initCircuitAsync(c2)] leaves
    the collection as it is and returns the same unit.  Likewise after
    [setCircuitAsync(c1, d1)] there is exactly one unit with that id, and a
    following [setCircuitAsync(c2, d2)] leaves the collection as it is and
    resolves. *)
Theorem create_paths_are_idempotent
    {Data : Type} (this : NixieCircuitCollection.t) (c1 c2 : Circuit.t)
    (d1 d2 : Data) (w : World) :
  Circuit.id c2 = Circuit.id c1 ->
  (count_id (Circuit.id c1) this <= 1)%nat ->
  (let '(this1, w1, r1) := NixieCircuitCollection.initCircuitAsync this c1 w in
   let '(this2, w2, r2) := NixieCircuitCollection.initCircuitAsync this1 c2 w1 in
   count_id (Circuit.id c1) this1 = 1%nat
   /\ this2 = this1
   /\ r2 = r1)
  /\
  (let '(this1, _, w1, r1) := NixieCircuitCollection.setCircuitAsync this c1 d1 w in
   let '(this2, _, w2, r2) := NixieCircuitCollection.setCircuitAsync this1 c2 d2 w1 in
   count_id (Circuit.id c1) this1 = 1%nat
   /\ this2 = this1
   /\ r2 = Resolved tt).
Proof.
  intros Hid Hcount. destruct this as [l p t]. split.
  - unfold NixieCircuitCollection.initCircuitAsync.
    destruct (NixieCircuitCollection.find_by_id (Circuit.id c1) _) as [u|] eqn:Hfind.
    + rewrite Hid, Hfind.
      apply find_by_id_Some in Hfind as [_ Hge]. split; [lia|done].
    + unfold NixieCircuitCollection.set_items. cbn [NixieCircuitCollection.items
        NixieCircuitCollection.pollingInterval NixieCircuitCollection._pollTimer].
      rewrite Hid,
        (find_by_id_push (Circuit.id c1) l p t (NixieCircuit.mk c1) eq_refl Hfind).
      rewrite count_id_push, (find_by_id_None _ _ Hfind).
      unfold NixieCircuit.id at 1. cbn [NixieCircuit.circuit].
      by rewrite bool_decide_eq_true_2.
  - unfold NixieCircuitCollection.setCircuitAsync, NixieCircuit.setCircuitAsync.
    destruct (NixieCircuitCollection.find_by_id (Circuit.id c1) _) as [u|] eqn:Hfind.
    + rewrite Hid, Hfind.
      apply find_by_id_Some in Hfind as [_ Hge]. split; [lia|done].
    + unfold NixieCircuitCollection.set_items. cbn [NixieCircuitCollection.items
        NixieCircuitCollection.pollingInterval NixieCircuitCollection._pollTimer].
      rewrite Hid,
        (find_by_id_push (Circuit.id c1) l p t
           (NixieCircuit.mk (Circuit.set_master 1 c1)) eq_refl Hfind).
      rewrite count_id_push, (find_by_id_None _ _ Hfind).
      unfold NixieCircuit.id at 1. cbn [NixieCircuit.circuit Circuit.set_master Circuit.id].
      by rewrite bool_decide_eq_true_2.
Qed.

(** C9, an instance: the collection holds the unit of circuit 5 and circuit 7
    is created twice by each path. *)
Lemma create_paths_are_idempotent_witness :
  Circuit.id aux7 = Circuit.id aux7
  /\ (count_id (Circuit.id aux7) pool_collection <= 1)%nat
  /\ (let '(this1, w1, r1) :=
        NixieCircuitCollection.initCircuitAsync pool_collection aux7 world_off in
      let '(this2, w2, r2) := NixieCircuitCollection.initCircuitAsync this1 aux7 w1 in
      count_id (Circuit.id aux7) this1 = 1%nat /\ this2 = this1 /\ r2 = r1).
Proof.
  assert (Hcount : (count_id (Circuit.id aux7) pool_collection <= 1)%nat).
  { cbn. repeat constructor. }
  split; [reflexivity|]. split; [exact Hcount|].
  exact (proj1 (create_paths_are_idempotent (Data := unit) pool_collection aux7 aux7
                  tt tt world_off eq_refl Hcount)).
Defined.

(** ** The master flag of the units *)

(** What [initAsync] builds wraps master configs only. *)
Lemma initAsync_all_master this circuits w :
  all_master (NixieCircuitCollection.initAsync this circuits w).1.1.
Proof.
  unfold all_master, NixieCircuitCollection.initAsync.
  destruct (initLoop_spec circuits (length circuits) 0 [] w) as [Hl _]; [lia|].
  destruct (NixieCircuitCollection.initLoop circuits (length circuits) 0 [] w) as [[l w'] r].
  cbn in *. subst l. unfold master_units.
  apply Forall_forall. intros u Hu.
  apply list_elem_of_In, in_map_iff in Hu as (c & <- & Hc).
  apply filter_In in Hc as [_ Hc]. by apply bool_decide_eq_true in Hc.
Qed.

(** [setCircuitAsync] keeps the flag: the unit it creates wraps the config
    after [circuit.master = 1]. *)
Lemma setCircuitAsync_all_master {Data : Type} this circuit (data : Data) w :
  all_master this ->
  all_master (NixieCircuitCollection.setCircuitAsync this circuit data w).1.1.1
  /\ Circuit.master (NixieCircuitCollection.setCircuitAsync this circuit data w).1.1.2
     = match NixieCircuitCollection.find_by_id (Circuit.id circuit) this with
       | None => 1
       | Some _ => Circuit.master circuit
       end.
Proof.
  unfold all_master, NixieCircuitCollection.setCircuitAsync, NixieCircuit.setCircuitAsync.
  intros Hall. destruct (NixieCircuitCollection.find_by_id _ _); cbn; [done|].
  split; [|done]. apply Forall_app. split; [done|]. by repeat constructor.
Qed.

Lemma setCircuitAsync_all_master_witness :
  all_master empty_collection
  /\ all_master (NixieCircuitCollection.setCircuitAsync empty_collection aux7 tt world_off).1.1.1.
Proof.
  assert (H : all_master empty_collection) by constructor.
  split; [exact H|].
  exact (proj1 (setCircuitAsync_all_master empty_collection aux7 tt world_off H)).
Defined.

(** [closeAsync] keeps the flag: it only removes units. *)
Lemma closeAsync_all_master env this w :
  all_master this ->
  all_master (NixieCircuitCollection.closeAsync env this w).1.1.
Proof.
  unfold all_master, NixieCircuitCollection.closeAsync. intros Hall.
  destruct (closeLoop_spec env w (length (NixieCircuitCollection.items this))
              (NixieCircuitCollection.items this) w) as (Hl & _); [lia|].
  destruct (NixieCircuitCollection.closeLoop _ _ _ _) as [l w'].
  cbn [fst snd NixieCircuitCollection.set_items NixieCircuitCollection.items] in *.
  rewrite firstn_all, drop_all, app_nil_r in Hl. subst l.
  apply Forall_forall. intros u Hu.
  apply list_elem_of_In, filter_In in Hu as [Hu _].
  rewrite Forall_forall in Hall. by apply Hall, list_elem_of_In.
Qed.

(** [initCircuitAsync] keeps the flag only when the config it is given
    carries it: the create path appends the config as given. *)
Lemma initCircuitAsync_all_master this circuit w :
  all_master this ->
  Circuit.master circuit = 1 ->
  all_master (NixieCircuitCollection.initCircuitAsync this circuit w).1.1.
Proof.
  unfold all_master, NixieCircuitCollection.initCircuitAsync.
  intros Hall Hm. destruct (NixieCircuitCollection.find_by_id _ _); cbn; [done|].
  apply Forall_app. split; [done|]. by repeat constructor.
Qed.

(** C4, where the code departs from the claim: [initCircuitAsync] on the
    empty collection with the config of circuit 7, whose [master] is 0,
    appends a unit that wraps this config unchanged; the collection then
    holds a unit whose config is not flagged master. *)
Lemma initCircuit_appends_config_as_given :
  let this' := (NixieCircuitCollection.initCircuitAsync empty_collection aux7 world_off).1.1 in
  NixieCircuitCollection.items this' = [NixieCircuit.mk aux7]
  /\ Circuit.master aux7 = 0
  /\ ~ all_master this'.
Proof.
  cbn. split; [done|]. split; [done|].
  unfold all_master. cbn. intros H. inversion H as [|? ? Hm _]. discriminate Hm.
Qed.

(** * Further properties *)

(** ** Further properties of NixieCircuit *)

Lemma device_calls_app tr1 tr2 :
  device_calls (tr1 ++ tr2) = device_calls tr1 ++ device_calls tr2.
Proof. unfold device_calls. apply List.filter_app. Qed.

(** What the status read returns and what it leaves behind. *)
Lemma checkHardwareStatus_spec env connectionId deviceBinding w :
  let out := NixieCircuit.checkHardwareStatusAsync env connectionId deviceBinding w in
  let path := "/status/device/" +:+ js_template deviceBinding in
  out.2 = match getDeviceService env connectionId path with
          | Resolved dev => Resolved dev
          | Rejected _ => Resolved (Some (mkDevice (Some true)))
          end
  /\ live out.1 = live w
  /\ timers out.1 = timers w
  /\ device_calls (trace out.1) = device_calls (trace w) ++ [EvGetDevice connectionId path].
Proof.
  intros out path. subst out.
  unfold NixieCircuit.checkHardwareStatusAsync, try_catch, bind, call, ret. fold path.
  destruct (getDeviceService env connectionId path) as [dev|err]; cbn [fst snd].
  - rewrite trace_emit, device_calls_app. done.
  - unfold logger_error. rewrite !trace_emit, !device_calls_app. cbn.
    by rewrite app_nil_r.
Qed.

(** X4. [checkHardwareStatusAsync] never rejects, whatever the device service
    does: it resolves with the answer of the status read when there is one
    and with [{hasFault: true}] when the read throws.  It sends that one read
    and leaves the live state and the timers alone. *)
Theorem checkHardwareStatus_is_fail_safe
    (env : Env) (connectionId deviceBinding : JsString) (w : World) :
  let out := NixieCircuit.checkHardwareStatusAsync env connectionId deviceBinding w in
  let path := "/status/device/" +:+ js_template deviceBinding in
  (exists dev, out.2 = Resolved dev)
  /\ out.2 = match getDeviceService env connectionId path with
             | Resolved dev => Resolved dev
             | Rejected _ => Resolved (Some (mkDevice (Some true)))
             end
  /\ live out.1 = live w
  /\ timers out.1 = timers w
  /\ device_calls (trace out.1) = device_calls (trace w) ++ [EvGetDevice connectionId path].
Proof.
  intros out path. subst out.
  destruct (checkHardwareStatus_spec env connectionId deviceBinding w) as (Hr & Hl & Ht & Hc).
  fold path in Hr, Hc. split; [|done].
  rewrite Hr. destruct (getDeviceService env connectionId path); eauto.
Qed.

(** X5. [validateSetupAsync] changes nothing but the [commStatus] of the
    state object it is given: [isOn] of that object, every other live-state
    object and the timers are as before.  It sends no state write; it sends
    one status read when both binding fields are set, and none otherwise. *)
Theorem validateSetup_frame
    (env : Env) (this : NixieCircuit.t) (circuit : Circuit.t) (cstate : ref) (w : World)
    (r : ref) :
  let w' := (NixieCircuit.validateSetupAsync env this circuit cstate w).1 in
  CircuitState.isOn (live w' cstate) = CircuitState.isOn (live w cstate)
  /\ (r ≠ cstate -> live w' r = live w r)
  /\ timers w' = timers w
  /\ device_calls (trace w')
     = device_calls (trace w)
       ++ (if unbound circuit then []
           else [EvGetDevice (Circuit.connectionId circuit)
                   ("/status/device/" +:+ js_template (Circuit.deviceBinding circuit))]).
Proof.
  intros w'. subst w'. unfold NixieCircuit.validateSetupAsync.
  rewrite unbound_is_bound.
  destruct (unbound circuit); cbn [negb fst snd].
  - rewrite live_update_same, trace_update, app_nil_r.
    split; [done|]. split; [|done]. intros Hne. by rewrite live_update_other.
  - destruct (checkHardwareStatus_spec env (Circuit.connectionId circuit)
                (Circuit.deviceBinding circuit) w) as (Hr & Hl & Ht & Hc).
    destruct (NixieCircuit.checkHardwareStatusAsync env _ _ w) as [w1 [[stat|]|err]];
      cbn [fst snd] in *; rewrite live_update_same, trace_update, Hl, Hc;
      (split; [done|]); (split; [|done]); intros Hne; by rewrite live_update_other, Hl.
Qed.

Lemma unit_setCircuitState_timers env this cstate val w :
  timers (NixieCircuit.setCircuitStateAsync env this cstate val w).1 = timers w
  /\ nextTimer (NixieCircuit.setCircuitStateAsync env this cstate val w).1 = nextTimer w.
Proof.
  unfold NixieCircuit.setCircuitStateAsync.
  destruct (negb _), (NixieCircuit.is_virtual _); cbn [fst]; try done;
    destruct (putDeviceService _ _ _ _); cbn [fst]; try case_decide; done.
Qed.

Lemma unit_close_timers env u w :
  timers (NixieCircuit.closeAsync env u w).1 = timers w
  /\ nextTimer (NixieCircuit.closeAsync env u w).1 = nextTimer w.
Proof.
  unfold NixieCircuit.closeAsync, try_catch, bind, call, ret.
  destruct (getItemById env _) as [cstate|err]; [|done].
  destruct (unit_setCircuitState_timers env u cstate false
              (emit (EvGetItemById (Circuit.id (NixieCircuit.circuit u))) w)) as [Ht Hn].
  destruct (NixieCircuit.setCircuitStateAsync _ _ _ _ _) as [w2 [r|e]]; done.
Qed.

(** X6. When the lookup of its live state answers, [NixieCircuit.closeAsync]
    resolves and leaves the circuit off unless the device refused: [isOn] is
    false for a virtual unit and for a bound unit whose device answered 200,
    and keeps its value when the device answered another code or the write
    threw.  The write it sends carries [isOn: false] and no latch. *)
Theorem unit_close_leaves_circuit_off
    (env : Env) (this : NixieCircuit.t) (w : World) (cstate : ref) :
  getItemById env (NixieCircuit.id this) = Resolved cstate ->
  let c := NixieCircuit.circuit this in
  let w' := (NixieCircuit.closeAsync env this w).1 in
  let request :=
    EvPutDevice (Circuit.connectionId c) (NixieCircuit.put_path c) (mkPutBody false None) in
  CircuitState.isOn (live w' cstate)
  = (if NixieCircuit.is_virtual c then false
     else match putDeviceService env (Circuit.connectionId c) (NixieCircuit.put_path c)
                  (mkPutBody false None) with
          | Resolved res =>
              if decide (status_code res = 200) then false
              else CircuitState.isOn (live w cstate)
          | Rejected _ => CircuitState.isOn (live w cstate)
          end)
  /\ device_calls (trace w')
     = device_calls (trace w) ++ (if NixieCircuit.is_virtual c then [] else [request])
  /\ (NixieCircuit.closeAsync env this w).2 = Resolved tt.
Proof.
  intros Hlookup c w' request. subst w'.
  unfold NixieCircuit.closeAsync, try_catch, bind, call, ret.
  unfold NixieCircuit.id in Hlookup. fold c in Hlookup |- *. rewrite Hlookup.
  unfold NixieCircuit.setCircuitStateAsync. fold c.
  unfold NixieCircuit.put_body.
  set (w0 := emit (EvGetItemById (Circuit.id c)) w).
  set (w1 := if negb _ then _ else w0).
  assert (Hlive : live w1 = live w) by (subst w1 w0; by destruct (negb _)).
  assert (Hcalls : device_calls (trace w1) = device_calls (trace w)).
  { subst w1 w0. destruct (negb _); unfold logger_info;
      rewrite ?trace_emit, ?device_calls_app; cbn; by rewrite ?app_nil_r. }
  clearbody w1.
  destruct (NixieCircuit.is_virtual c); cbn [fst snd].
  - rewrite live_update_same, trace_update, Hcalls, app_nil_r. done.
  - destruct (putDeviceService env _ _ _) as [res|err]; cbn [fst snd].
    + case_decide; rewrite ?live_update_same, ?trace_update, ?live_emit, trace_emit,
        device_calls_app, Hcalls, ?Hlive; done.
    + unfold logger_error. rewrite !live_emit, !trace_emit, !device_calls_app, Hcalls, Hlive.
      cbn. by rewrite app_nil_r.
Qed.

(** ** Further properties of NixieCircuitCollection: shutdown *)

Lemma closeLoop_timers env n :
  forall l w,
    timers (NixieCircuitCollection.closeLoop env n l w).2 = timers w
    /\ nextTimer (NixieCircuitCollection.closeLoop env n l w).2 = nextTimer w.
Proof.
  induction n as [|i IH]; intros l w; cbn [NixieCircuitCollection.closeLoop]; [done|].
  destruct (l !! i) as [u|].
  - destruct (unit_close_timers env u w) as [Ht Hn].
    destruct (NixieCircuit.closeAsync env u w) as [w1 [[]|err]]; cbn [fst] in *.
    + destruct (IH (delete i l) w1) as [-> ->]. done.
    + destruct (IH l (logger_error ("Error stopping Nixie Circuit " +:+ js_error_string err) w1))
        as [-> ->]. done.
  - destruct (IH l (logger_error
        ("Error stopping Nixie Circuit " +:+
         js_error_string (TypeError "Cannot read properties of undefined (reading 'closeAsync')")) w))
      as [-> ->]. done.
Qed.

(** X8. [NixieCircuitCollection.closeAsync] does not touch the poll timer: the
    pending timeouts, [_pollTimer] and [pollingInterval] are after the call
    what they were before, so a poll that was scheduled stays scheduled. *)
Theorem closeAll_leaves_poll_timer
    (env : Env) (this : NixieCircuitCollection.t) (w : World) :
  let this' := (NixieCircuitCollection.closeAsync env this w).1.1 in
  let w' := (NixieCircuitCollection.closeAsync env this w).1.2 in
  timers w' = timers w
  /\ nextTimer w' = nextTimer w
  /\ NixieCircuitCollection._pollTimer this' = NixieCircuitCollection._pollTimer this
  /\ NixieCircuitCollection.pollingInterval this' = NixieCircuitCollection.pollingInterval this.
Proof.
  intros this' w'. subst this' w'. unfold NixieCircuitCollection.closeAsync.
  destruct (closeLoop_timers env (length (NixieCircuitCollection.items this))
              (NixieCircuitCollection.items this) w) as [Ht Hn].
  destruct (NixieCircuitCollection.closeLoop _ _ _ _) as [l w']. done.
Qed.

(** X7. When the live-state lookup answers for the id of every unit,
    [NixieCircuitCollection.closeAsync] leaves the collection empty. *)
Theorem closeAll_empties_collection
    (env : Env) (this : NixieCircuitCollection.t) (w : World) :
  Forall (fun u => is_rejected (getItemById env (NixieCircuit.id u)) = false)
         (NixieCircuitCollection.items this) ->
  NixieCircuitCollection.items (NixieCircuitCollection.closeAsync env this w).1.1 = [].
Proof.
  intros Hall. unfold NixieCircuitCollection.closeAsync.
  destruct (closeLoop_spec env w (length (NixieCircuitCollection.items this))
              (NixieCircuitCollection.items this) w) as (Hl & _); [lia|].
  destruct (NixieCircuitCollection.closeLoop _ _ _ _) as [l w'].
  cbn [fst snd NixieCircuitCollection.set_items NixieCircuitCollection.items] in *.
  rewrite firstn_all, drop_all, app_nil_r in Hl. subst l.
  induction Hall as [|u l Hu _ IH]; [done|].
  cbn [List.filter]. by rewrite unit_close_rejects, Hu.
Qed.

(** ** The poll timer *)

(** X9. [pollCircuitsAsync] resolves and touches nothing but the timer: the
    units, [pollingInterval] and the live state are unchanged, and it sends no
    device request and looks up no live state. *)
Theorem poll_changes_timers_only (this : NixieCircuitCollection.t) (w : World) :
  let this' := (NixieCircuitCollection.pollCircuitsAsync this w).1.1 in
  let w' := (NixieCircuitCollection.pollCircuitsAsync this w).1.2 in
  NixieCircuitCollection.items this' = NixieCircuitCollection.items this
  /\ NixieCircuitCollection.pollingInterval this' = NixieCircuitCollection.pollingInterval this
  /\ live w' = live w
  /\ device_calls (trace w') = device_calls (trace w)
  /\ lookups (trace w') = lookups (trace w)
  /\ (NixieCircuitCollection.pollCircuitsAsync this w).2 = Resolved tt.
Proof.
  intros this' w'. subst this' w'.
  unfold NixieCircuitCollection.pollCircuitsAsync, NixieCircuitCollection.pollCircuitsAsync_with.
  destruct (NixieCircuitCollection._pollTimer this); cbn;
    rewrite ?device_calls_app, ?lookups_app; cbn; by rewrite ?app_nil_r.
Qed.

Lemma tick_spec this w h d :
  timers w = [(h, d)] ->
  let this' := (tick this w).1.1 in
  let w' := (tick this w).1.2 in
  timers w' = [(nextTimer w, js_or (NixieCircuitCollection.pollingInterval this) 10000)]
  /\ NixieCircuitCollection._pollTimer this' = THandle (nextTimer w)
  /\ nextTimer w' = S (nextTimer w)
  /\ NixieCircuitCollection.pollingInterval this' = NixieCircuitCollection.pollingInterval this
  /\ armed (trace w')
     = armed (trace w)
       ++ [(nextTimer w, js_or (NixieCircuitCollection.pollingInterval this) 10000)].
Proof.
  intros Ht this' w'. subst this' w'. unfold tick. rewrite Ht.
  unfold NixieCircuitCollection.pollCircuitsAsync, NixieCircuitCollection.pollCircuitsAsync_with.
  unfold armed.
  destruct (NixieCircuitCollection._pollTimer this); cbn;
    rewrite ?omap_app; cbn; by rewrite ?app_nil_r.
Qed.

Lemma ticks_spec n :
  forall this w h d,
    timers w = [(h, d)] ->
    let delay := js_or (NixieCircuitCollection.pollingInterval this) 10000 in
    let this' := (ticks (S n) this w).1 in
    let w' := (ticks (S n) this w).2 in
    timers w' = [((nextTimer w + n)%nat, delay)]
    /\ NixieCircuitCollection._pollTimer this' = THandle (nextTimer w + n)%nat
    /\ armed (trace w')
       = armed (trace w) ++ List.map (fun k => ((nextTimer w + k)%nat, delay)) (seq 0 (S n)).
Proof.
  induction n as [|n IH]; intros this w h d Ht delay this' w'; subst this' w'.
  - cbn [ticks]. destruct (tick_spec this w h d Ht) as (H1 & H2 & H3 & H4 & H5).
    destruct (tick this w) as [[this1 w1] r]. cbn [fst snd seq List.map] in *.
    rewrite Nat.add_0_r. done.
  - change (ticks (S (S n)) this w)
      with (let '(this1, w1, _) := tick this w in ticks (S n) this1 w1).
    destruct (tick_spec this w h d Ht) as (H1 & H2 & H3 & H4 & H5).
    destruct (tick this w) as [[this1 w1] r]. cbn [fst snd] in *.
    destruct (IH this1 w1 _ _ H1) as (G1 & G2 & G3).
    rewrite G1, G2, G3, H3, H4, H5. fold delay.
    split; [f_equal; f_equal; lia|]. split; [f_equal; lia|].
    rewrite <- app_assoc. f_equal.
    change (seq 0 (S (S n))) with (0%nat :: seq 1 (S n)).
    rewrite <- seq_shift. cbn [List.map app]. rewrite List.map_map.
    rewrite Nat.add_0_r. f_equal.
    apply List.map_ext. intros k. f_equal. lia.
Qed.

Lemma poll_start_spec this w :
  poll_inv this w ->
  let this' := (NixieCircuitCollection.pollCircuitsAsync this w).1.1 in
  let w' := (NixieCircuitCollection.pollCircuitsAsync this w).1.2 in
  timers w' = [(nextTimer w, js_or (NixieCircuitCollection.pollingInterval this) 10000)]
  /\ NixieCircuitCollection._pollTimer this' = THandle (nextTimer w)
  /\ nextTimer w' = S (nextTimer w)
  /\ NixieCircuitCollection.pollingInterval this' = NixieCircuitCollection.pollingInterval this
  /\ armed (trace w')
     = armed (trace w)
       ++ [(nextTimer w, js_or (NixieCircuitCollection.pollingInterval this) 10000)].
Proof.
  intros Hinv this' w'. subst this' w'.
  unfold NixieCircuitCollection.pollCircuitsAsync, NixieCircuitCollection.pollCircuitsAsync_with.
  pose proof (poll_inv_cleared this w Hinv) as Hclr.
  set (w1 := match NixieCircuitCollection._pollTimer this with
             | TUndefined => w | h => clearTimeout h w end) in *.
  assert (Hnext : nextTimer w1 = nextTimer w).
  { subst w1. by destruct (NixieCircuitCollection._pollTimer this). }
  assert (Harmed : armed (trace w1) = armed (trace w)).
  { subst w1. unfold armed.
    destruct (NixieCircuitCollection._pollTimer this); cbn;
      rewrite ?omap_app; cbn; by rewrite ?app_nil_r. }
  clearbody w1. cbn. rewrite Hclr, Hnext. unfold armed in *.
  rewrite omap_app, Harmed. done.
Qed.

(** X10. The poll keeps itself going.  Let the only timeout that may be
    pending be the one [_pollTimer] holds.  After [pollCircuitsAsync] and any
    number [n] of firings of the pending timeout, exactly one timeout is
    pending, it is the one [_pollTimer] holds, and [n + 1] timeouts were armed
    in all, one after the other, each with the delay
    [pollingInterval || 10000]. *)
Theorem poll_loop_keeps_one_timer
    (n : nat) (this : NixieCircuitCollection.t) (w : World) :
  poll_inv this w ->
  let delay := js_or (NixieCircuitCollection.pollingInterval this) 10000 in
  let started := NixieCircuitCollection.pollCircuitsAsync this w in
  let this' := (ticks n started.1.1 started.1.2).1 in
  let w' := (ticks n started.1.1 started.1.2).2 in
  timers w' = [((nextTimer w + n)%nat, delay)]
  /\ NixieCircuitCollection._pollTimer this' = THandle (nextTimer w + n)%nat
  /\ armed (trace w')
     = armed (trace w) ++ List.map (fun k => ((nextTimer w + k)%nat, delay)) (seq 0 (S n)).
Proof.
  intros Hinv delay started this' w'. subst this' w' started.
  destruct (poll_start_spec this w Hinv) as (H1 & H2 & H3 & H4 & H5).
  destruct (NixieCircuitCollection.pollCircuitsAsync this w) as [[this1 w1] r].
  cbn [fst snd] in *. fold delay in H1, H5.
  destruct n as [|n].
  - cbn [ticks fst snd seq List.map]. rewrite Nat.add_0_r. done.
  - destruct (ticks_spec n this1 w1 _ _ H1) as (G1 & G2 & G3).
    rewrite G1, G2, G3, H3, H4, H5. fold delay.
    split; [f_equal; f_equal; lia|]. split; [f_equal; lia|].
    rewrite <- app_assoc. f_equal.
    change (seq 0 (S (S n))) with (0%nat :: seq 1 (S n)).
    rewrite <- seq_shift. cbn [List.map app]. rewrite List.map_map.
    rewrite Nat.add_0_r. f_equal.
    apply List.map_ext. intros k. f_equal. lia.
Qed.

(** ** Initialisation and lookup *)

Lemma initAsync_items this circuits w :
  NixieCircuitCollection.items (NixieCircuitCollection.initAsync this circuits w).1.1
  = master_units circuits.
Proof.
  unfold NixieCircuitCollection.initAsync.
  destruct (initLoop_spec circuits (length circuits) 0 [] w) as [Hl _]; [lia|].
  destruct (NixieCircuitCollection.initLoop circuits (length circuits) 0 [] w) as [[l w'] r].
  cbn in *. by subst l.
Qed.

Lemma find_master_units id circuits :
  List.find (fun elem => bool_decide (NixieCircuit.id elem = id)) (master_units circuits)
  = NixieCircuit.mk <$> List.find (is_master_with_id id) circuits.
Proof.
  induction circuits as [|c cs IH]; [done|].
  rewrite master_units_cons. cbn [List.find]. unfold is_master_with_id at 1.
  destruct (decide (Circuit.master c = 1)) as [Hm|Hm].
  - rewrite (bool_decide_eq_true_2 _ Hm). cbn [app List.find andb].
    unfold NixieCircuit.id at 1. cbn [NixieCircuit.circuit].
    destruct (bool_decide (Circuit.id c = id)); [done|exact IH].
  - rewrite (bool_decide_eq_false_2 _ Hm). cbn [app andb]. exact IH.
Qed.

Lemma filter_master_units id circuits :
  List.filter (fun u => bool_decide (NixieCircuit.id u = id)) (master_units circuits)
  = List.map NixieCircuit.mk (List.filter (is_master_with_id id) circuits).
Proof.
  induction circuits as [|c cs IH]; [done|].
  rewrite master_units_cons. cbn [List.filter]. unfold is_master_with_id at 1.
  destruct (decide (Circuit.master c = 1)) as [Hm|Hm].
  - rewrite (bool_decide_eq_true_2 _ Hm). cbn [app List.filter andb].
    unfold NixieCircuit.id at 1. cbn [NixieCircuit.circuit].
    destruct (bool_decide (Circuit.id c = id)); cbn [List.map]; by rewrite IH.
  - rewrite (bool_decide_eq_false_2 _ Hm). cbn [app andb]. exact IH.
Qed.

(** X11. After [initAsync(circuits)] the lookup of an id finds the unit of the
    first entry that is flagged master and has this id, and finds nothing when
    there is no such entry; the collection holds as many units with the id as
    there are such entries (entries that share an id are not merged). *)
Theorem initAsync_then_find
    (this : NixieCircuitCollection.t) (circuits : list Circuit.t) (w : World) (id : Z) :
  let this' := (NixieCircuitCollection.initAsync this circuits w).1.1 in
  NixieCircuitCollection.find_by_id id this'
  = NixieCircuit.mk <$> List.find (is_master_with_id id) circuits
  /\ count_id id this' = length (List.filter (is_master_with_id id) circuits).
Proof.
  intros this'. subst this'.
  unfold NixieCircuitCollection.find_by_id, count_id.
  rewrite initAsync_items, find_master_units, filter_master_units, length_map. done.
Qed.

(** what init writes *)
Lemma initLoop_world circuits fuel :
  forall i acc w,
    (i + fuel)%nat = length circuits ->
    let w' := (NixieCircuitCollection.initLoop circuits fuel i acc w).1.2 in
    live w' = live w /\ timers w' = timers w /\ nextTimer w' = nextTimer w
    /\ trace w' = trace w
         ++ List.map (fun u => Log LogInfo ("Initializing Nixie circuit "
                                  +:+ Circuit.name (NixieCircuit.circuit u)))
              (master_units (drop i circuits)).
Proof.
  induction fuel as [|fuel IH]; intros i acc w Hlen w'; subst w';
    cbn [NixieCircuitCollection.initLoop].
  - rewrite drop_ge by lia. cbn. by rewrite app_nil_r.
  - destruct (circuits !! i) as [c|] eqn:Hc.
    + rewrite (drop_S _ _ _ Hc), master_units_cons.
      destruct (decide (Circuit.master c = 1)).
      * destruct (IH (S i) (acc ++ [NixieCircuit.mk c])
                    (logger_info ("Initializing Nixie circuit " +:+ Circuit.name c) w))
          as (-> & -> & -> & ->); [lia|].
        unfold logger_info. rewrite trace_emit, <- app_assoc. done.
      * destruct (IH (S i) acc w) as (-> & -> & -> & ->); [lia|]. done.
    + apply lookup_ge_None in Hc. lia.
Qed.

(** X12. [initAsync] writes one "Initializing Nixie circuit <name>" line for
    each unit it builds, in their order, and nothing else; the live state, the
    timers and [_pollTimer] are unchanged. *)
Theorem initAsync_only_logs
    (this : NixieCircuitCollection.t) (circuits : list Circuit.t) (w : World) :
  let this' := (NixieCircuitCollection.initAsync this circuits w).1.1 in
  let w' := (NixieCircuitCollection.initAsync this circuits w).1.2 in
  live w' = live w
  /\ timers w' = timers w
  /\ NixieCircuitCollection._pollTimer this' = NixieCircuitCollection._pollTimer this
  /\ trace w' = trace w
       ++ List.map (fun u => Log LogInfo ("Initializing Nixie circuit "
                                +:+ Circuit.name (NixieCircuit.circuit u)))
            (NixieCircuitCollection.items this').
Proof.
  intros this' w'. subst this' w'.
  pose proof (initAsync_items this circuits w) as Hitems.
  unfold NixieCircuitCollection.initAsync in *.
  destruct (initLoop_world circuits (length circuits) 0 [] w) as (Hl & Ht & _ & Htr); [lia|].
  destruct (NixieCircuitCollection.initLoop circuits (length circuits) 0 [] w) as [[l w'] r].
  cbn [fst snd NixieCircuitCollection.set_items NixieCircuitCollection.items
       NixieCircuitCollection._pollTimer] in *.
  rewrite drop_0 in Htr. subst l. done.
Qed.

(** ** Unique ids *)

Lemma find_by_id_None_not_in id this :
  NixieCircuitCollection.find_by_id id this = None ->
  id ∉ List.map NixieCircuit.id (NixieCircuitCollection.items this).
Proof.
  unfold NixieCircuitCollection.find_by_id.
  induction (NixieCircuitCollection.items this) as [|u l IH]; cbn.
  - intros _ H. by apply elem_of_nil in H.
  - destruct (bool_decide _) eqn:Hu; [done|]. intros Hfind Hin.
    apply elem_of_cons in Hin as [->|Hin]; [|by apply IH].
    by apply bool_decide_eq_false in Hu.
Qed.

(** X13. A collection whose units have pairwise different ids keeps this
    through [setCircuitAsync], [initCircuitAsync] and [closeAsync]. *)
Theorem unique_ids_preserved
    {Data : Type} (env : Env) (this : NixieCircuitCollection.t) (circuit : Circuit.t)
    (data : Data) (w : World) :
  unique_ids this ->
  unique_ids (NixieCircuitCollection.setCircuitAsync this circuit data w).1.1.1
  /\ unique_ids (NixieCircuitCollection.initCircuitAsync this circuit w).1.1
  /\ unique_ids (NixieCircuitCollection.closeAsync env this w).1.1.
Proof.
  unfold unique_ids. intros Hu. split; [|split].
  - unfold NixieCircuitCollection.setCircuitAsync, NixieCircuit.setCircuitAsync.
    destruct (NixieCircuitCollection.find_by_id _ _) eqn:Hfind; cbn; [done|].
    rewrite List.map_app. apply NoDup_app. split; [done|]. split.
    + intros x Hx Hx'. cbn in Hx'. apply list_elem_of_singleton in Hx'. subst x.
      by apply (find_by_id_None_not_in _ _ Hfind).
    + cbn. apply NoDup_singleton.
  - unfold NixieCircuitCollection.initCircuitAsync.
    destruct (NixieCircuitCollection.find_by_id _ _) eqn:Hfind; cbn; [done|].
    rewrite List.map_app. apply NoDup_app. split; [done|]. split.
    + intros x Hx Hx'. cbn in Hx'. apply list_elem_of_singleton in Hx'. subst x.
      by apply (find_by_id_None_not_in _ _ Hfind).
    + cbn. apply NoDup_singleton.
  - unfold NixieCircuitCollection.closeAsync.
    destruct (closeLoop_spec env w (length (NixieCircuitCollection.items this))
                (NixieCircuitCollection.items this) w) as (Hl & _); [lia|].
    destruct (NixieCircuitCollection.closeLoop _ _ _ _) as [l w'].
    cbn [fst snd NixieCircuitCollection.set_items NixieCircuitCollection.items] in *.
    rewrite firstn_all, drop_all, app_nil_r in Hl. subst l.
    induction (NixieCircuitCollection.items this) as [|u l IH]; [done|].
    cbn in Hu. apply NoDup_cons in Hu as [Hnotin Hu].
    cbn [List.filter]. destruct (close_rejects env w u); [|by apply IH].
    cbn. apply NoDup_cons. split; [|by apply IH].
    intros Hin. apply Hnotin.
    apply list_elem_of_fmap in Hin as (v & -> & Hv).
    apply list_elem_of_fmap. exists v. split; [done|].
    apply list_elem_of_In, filter_In in Hv as [Hv _]. by apply list_elem_of_In.
Qed.

(** ** Create, then use *)

(** X14. After [setCircuitAsync(circuit, data)], and after
    [initCircuitAsync(circuit)], a state write through the collection for a
    state object with the id of [circuit] finds a unit: it resolves and is not
    rejected as "could not be found". *)
Theorem created_unit_is_found
    {Data : Type} (env : Env) (this : NixieCircuitCollection.t) (circuit : Circuit.t)
    (data : Data) (cstate : ref) (val : bool) (w : World) :
  CircuitState.id (live w cstate) = Circuit.id circuit ->
  let created := NixieCircuitCollection.setCircuitAsync this circuit data w in
  let looked_up := NixieCircuitCollection.initCircuitAsync this circuit w in
  (NixieCircuitCollection.setCircuitStateAsync env created.1.1.1 cstate val created.1.2).2
  = Resolved None
  /\ (NixieCircuitCollection.setCircuitStateAsync env looked_up.1.1 cstate val looked_up.1.2).2
     = Resolved None.
Proof.
  intros Hid created looked_up. subst created looked_up.
  assert (Hres : forall this' w',
    live w' cstate = live w cstate ->
    is_Some (NixieCircuitCollection.find_by_id (Circuit.id circuit) this') ->
    (NixieCircuitCollection.setCircuitStateAsync env this' cstate val w').2 = Resolved None).
  { intros this' w' Hlive [c Hc]. unfold NixieCircuitCollection.setCircuitStateAsync.
    rewrite Hlive, Hid, Hc. unfold try_catch, bind, ret.
    destruct (unit_setCircuitState_resolves env c cstate val w') as [res Hres].
    destruct (NixieCircuit.setCircuitStateAsync env c cstate val w') as [w2 r].
    simpl in *. by subst r. }
  destruct this as [l p t]. split.
  - unfold NixieCircuitCollection.setCircuitAsync, NixieCircuit.setCircuitAsync.
    destruct (NixieCircuitCollection.find_by_id _ _) eqn:Hfind; cbn [fst snd].
    + apply Hres; [done|]. by rewrite Hfind.
    + apply Hres; [done|]. unfold NixieCircuitCollection.set_items. cbn [NixieCircuitCollection.items
        NixieCircuitCollection.pollingInterval NixieCircuitCollection._pollTimer].
      by rewrite (find_by_id_push (Circuit.id circuit) l p t
                    (NixieCircuit.mk (Circuit.set_master 1 circuit)) eq_refl Hfind).
  - unfold NixieCircuitCollection.initCircuitAsync.
    destruct (NixieCircuitCollection.find_by_id _ _) eqn:Hfind; cbn [fst snd].
    + apply Hres; [done|]. by rewrite Hfind.
    + apply Hres; [done|]. unfold NixieCircuitCollection.set_items. cbn [NixieCircuitCollection.items
        NixieCircuitCollection.pollingInterval NixieCircuitCollection._pollTimer].
      by rewrite (find_by_id_push (Circuit.id circuit) l p t
                    (NixieCircuit.mk circuit) eq_refl Hfind).
Qed.

(** X15. [initCircuitAsync(circuit)] resolves with a unit that has the id of
    [circuit] and is in the collection after the call; the units that were
    there stay where they were, and the world is unchanged. *)
Theorem initCircuit_returns_member
    (this : NixieCircuitCollection.t) (circuit : Circuit.t) (w : World) :
  exists u,
    NixieCircuitCollection.initCircuitAsync this circuit w
    = ((NixieCircuitCollection.initCircuitAsync this circuit w).1.1, w, Resolved u)
    /\ NixieCircuit.id u = Circuit.id circuit
    /\ u ∈ NixieCircuitCollection.items (NixieCircuitCollection.initCircuitAsync this circuit w).1.1
    /\ NixieCircuitCollection.items this
       `prefix_of` NixieCircuitCollection.items
                     (NixieCircuitCollection.initCircuitAsync this circuit w).1.1.
Proof.
  unfold NixieCircuitCollection.initCircuitAsync.
  destruct (NixieCircuitCollection.find_by_id _ _) as [u|] eqn:Hfind; cbn [fst snd].
  - exists u. split; [done|]. split; [by apply find_by_id_Some in Hfind as [? _]|].
    split; [|done]. unfold NixieCircuitCollection.find_by_id in Hfind.
    apply List.find_some in Hfind as [Hin _]. by apply list_elem_of_In.
  - exists (NixieCircuit.mk circuit). split; [done|]. split; [done|].
    cbn. split; [apply elem_of_app; right; apply list_elem_of_singleton; done|].
    by apply prefix_app_r.
Qed.

(** ** escapeRegex *)

Lemma escapeRegex_round_trip s : unescapeRegex (escapeRegex s) = s.
Proof.
  induction s as [|c s IH]; [done|].
  cbn [escapeRegex]. destruct (is_regex_special c) eqn:Hc.
  - cbn [unescapeRegex]. rewrite Ascii.eqb_refl. by rewrite IH.
  - cbn [unescapeRegex]. destruct (Ascii.eqb_spec c "\"%char) as [->|_].
    + vm_compute in Hc. discriminate.
    + by rewrite IH.
Qed.

(** X16. [escapeRegex] loses nothing: reading the backslashes back gives the
    input, so two strings have the same escaped form only when they are
    equal. *)
Theorem escapeRegex_injective (s1 s2 : string) :
  (escapeRegex s1 = escapeRegex s2 <-> s1 = s2)
  /\ unescapeRegex (escapeRegex s1) = s1.
Proof.
  split; [|apply escapeRegex_round_trip].
  split; [|by intros ->].
  intros H. rewrite <- (escapeRegex_round_trip s1), <- (escapeRegex_round_trip s2).
  by rewrite H.
Qed.

(** X17. [escapeRegex] works character by character: the escaped form of a
    concatenation is the concatenation of the escaped forms. *)
Theorem escapeRegex_app (s1 s2 : string) :
  escapeRegex (s1 +:+ s2) = escapeRegex s1 +:+ escapeRegex s2.
Proof.
  induction s1 as [|c s1 IH]; [done|].
  change (String c s1 +:+ s2) with (String c (s1 +:+ s2)).
  cbn [escapeRegex]. rewrite IH. by destruct (is_regex_special c).
Qed.


(** ** app.ts *)

(** X19. [initAsync] of [app.ts] never rejects.  It starts the modules in the
    order config, logger, conn, sys, state, webApp, [sys.start]; the first
    step that fails ends the sequence, the later ones are not called, and the
    failure is written to the console. *)
Theorem app_initAsync_stops_at_first_failure (env : App.Env) (tr : list App.AppEvent) :
  App.initAsync env tr
  = (tr ++ List.map App.Call (App.until_failure env App.init_steps)
        ++ match App.first_error env App.init_steps with
           | Some err =>
               [App.ConsoleLog ("Error Initializing nodejs-PoolController " +:+ message err)]
           | None => []
           end,
     Resolved tt).
Proof.
  unfold App.initAsync, App.catch, App.andThen, App.call, App.console_log, App.init_steps.
  cbn [App.until_failure App.first_error].
  repeat (match goal with
          | |- context [App.step env ?s] => destruct (App.step env s) as [[]|?]
          end; cbn [List.map app]; rewrite <- ?app_assoc; cbn [app]; try done).
Qed.

(** X20. [stopAsync] always ends in [process.exit()], called once and last,
    whatever the steps before it do.  The steps run in the order sys, state,
    conn, webApp, [config.update], logger; the first that fails skips the
    later ones and is written to the console. *)
Theorem app_stopAsync_always_exits (env : App.Env) (tr : list App.AppEvent) :
  App.stopAsync env tr
  = (tr ++ [App.ConsoleLog "Shutting down open processes"]
        ++ List.map App.Call (App.until_failure env App.stop_steps)
        ++ match App.first_error env App.stop_steps with
           | Some err => [App.ConsoleError ("Error stopping processes: " +:+ message err)]
           | None => []
           end
        ++ [App.ProcessExit],
     App.Exited).
Proof.
  unfold App.stopAsync, App.catch, App.andThen, App.call, App.console_log,
    App.console_error, App.stop_steps.
  cbn [App.until_failure App.first_error].
  repeat (match goal with
          | |- context [App.step env ?s] => destruct (App.step env s) as [[]|?]
          end; cbn [List.map app]; rewrite <- ?app_assoc; cbn [app]; try done).
Qed.

(** X21. [startPacketCapture(bResetLogs)] never rejects.  It reads the log
    section and writes it back with [app.captureForReplay] true and every
    other setting as read, then starts the capture, then resets the system
    when [bResetLogs] is true and only then; a failing step (also a section
    without [app]) skips the later ones and is written to the console. *)
Theorem app_startPacketCapture_never_rejects
    (env : App.Env) (bResetLogs : bool) (tr : list App.AppEvent) :
  let out := App.startPacketCapture env bResetLogs tr in
  let report err := [App.ConsoleError ("Error starting replay: " +:+ message err)] in
  out.2 = Resolved tt
  /\ out.1 = tr ++ App.GetSection "log" ::
       match App.getSection env "log" with
       | Rejected err => report err
       | Resolved log =>
           match App.app log with
           | None =>
               report (TypeError
                         "Cannot set properties of undefined (setting 'captureForReplay')")
           | Some a =>
               let written :=
                 App.mkLogSection (Some (App.mkLogApp (Some true) (App.app_settings a)))
                   (App.section_settings log) in
               let steps :=
                 [App.SetSection "log" written; App.StartCaptureForReplay bResetLogs]
                 ++ (if bResetLogs then [App.ResetSystem] else []) in
               List.map App.Call (App.until_failure env steps)
               ++ match App.first_error env steps with
                  | Some err => report err
                  | None => []
                  end
           end
       end.
Proof.
  intros out report. subst out report.
  unfold App.startPacketCapture, App.catch, App.andThen, App.call, App.console_error,
    App.get_section, App.lift, App.set_captureForReplay.
  destruct (App.getSection env "log") as [log|err]; cbn [fst snd];
    [|by rewrite <- app_assoc].
  destruct (App.app log) as [a|]; cbn [fst snd]; [|by rewrite <- app_assoc].
  destruct bResetLogs; cbn [app App.until_failure App.first_error];
    repeat (match goal with
            | |- context [App.step env ?s] => destruct (App.step env s) as [[]|?]
            end; cbn [List.map app fst snd]; rewrite <- ?app_assoc; cbn [app]; try done).
Qed.

(** X22. [stopPacketCaptureAsync] has no handler: when the read of the log
    section or its write fails (also for a section without [app]) the call
    rejects with that error and the capture is not stopped; otherwise the
    section is written back with [app.captureForReplay] false and the call
    settles as [logger.stopCaptureForReplayAsync()] does. *)
Theorem app_stopPacketCapture_propagates (env : App.Env) (tr : list App.AppEvent) :
  let out := App.stopPacketCaptureAsync env tr in
  match App.getSection env "log" with
  | Rejected err => out = (tr ++ [App.GetSection "log"], Rejected err)
  | Resolved log =>
      match App.app log with
      | None =>
          out = (tr ++ [App.GetSection "log"],
                 Rejected (TypeError
                   "Cannot set properties of undefined (setting 'captureForReplay')"))
      | Some a =>
          let written :=
            App.mkLogSection (Some (App.mkLogApp (Some false) (App.app_settings a)))
              (App.section_settings log) in
          match App.step env (App.SetSection "log" written) with
          | Rejected err =>
              out = (tr ++ [App.GetSection "log"; App.Call (App.SetSection "log" written)],
                     Rejected err)
          | Resolved _ =>
              out = (tr ++ [App.GetSection "log"; App.Call (App.SetSection "log" written);
                            App.Call App.StopCaptureForReplay],
                     App.step env App.StopCaptureForReplay)
          end
      end
  end.
Proof.
  intros out. subst out.
  unfold App.stopPacketCaptureAsync, App.andThen, App.call, App.get_section, App.lift,
    App.set_captureForReplay.
  destruct (App.getSection env "log") as [log|err]; [|done].
  destruct (App.app log) as [a|]; [|done].
  destruct (App.step env (App.SetSection _ _)) as [[]|err]; rewrite <- ?app_assoc; done.
Qed.

(** ** Instances *)

(** X6, an instance: a virtual unit that is on is off after close. *)
Lemma unit_close_leaves_circuit_off_witness :
  getItemById env_ok (NixieCircuit.id (NixieCircuit.mk (virtual_circuit 1))) = Resolved 0%nat
  /\ CircuitState.isOn
       (live (NixieCircuit.closeAsync env_ok (NixieCircuit.mk (virtual_circuit 1))
                world_polling).1 0%nat) = false.
Proof.
  split; [reflexivity|].
  exact (proj1 (unit_close_leaves_circuit_off env_ok (NixieCircuit.mk (virtual_circuit 1))
                  world_polling 0%nat eq_refl)).
Defined.

(** X7, an instance: three units, every lookup answers. *)
Lemma closeAll_empties_collection_witness :
  Forall (fun u => is_rejected (getItemById env_ok (NixieCircuit.id u)) = false)
         (NixieCircuitCollection.items three_units)
  /\ NixieCircuitCollection.items
       (NixieCircuitCollection.closeAsync env_ok three_units world_off).1.1 = [].
Proof.
  assert (H : Forall (fun u => is_rejected (getItemById env_ok (NixieCircuit.id u)) = false)
                     (NixieCircuitCollection.items three_units))
    by (repeat constructor).
  split; [exact H|].
  exact (closeAll_empties_collection env_ok three_units world_off H).
Defined.

(** X10, an instance: timeout 3 is pending; after the call and three firings
    timeout 7 is the only one pending. *)
Lemma poll_loop_keeps_one_timer_witness :
  poll_inv pool_collection world_polling
  /\ timers (ticks 3 (NixieCircuitCollection.pollCircuitsAsync pool_collection world_polling).1.1
                     (NixieCircuitCollection.pollCircuitsAsync pool_collection world_polling).1.2).2
     = [(7%nat, 2000)].
Proof.
  assert (Hinv : poll_inv pool_collection world_polling).
  { unfold poll_inv. cbn. repeat constructor. }
  split; [exact Hinv|].
  exact (proj1 (poll_loop_keeps_one_timer 3 pool_collection world_polling Hinv)).
Defined.

(** X13, an instance: the units of circuits 1, 2 and 3. *)
Lemma unique_ids_preserved_witness :
  unique_ids three_units
  /\ unique_ids (NixieCircuitCollection.initCircuitAsync three_units aux7 world_off).1.1.
Proof.
  assert (H : unique_ids three_units).
  { unfold unique_ids. apply (bool_decide_unpack _). vm_compute. exact I. }
  split; [exact H|].
  exact (proj1 (proj2 (unique_ids_preserved (Data := unit) env_ok three_units aux7 tt
                         world_off H))).
Defined.

(** X14, an instance: circuit 5 is created in the empty collection and then
    switched on. *)
Lemma created_unit_is_found_witness :
  CircuitState.id (live world_off 0%nat) = Circuit.id pool5
  /\ (NixieCircuitCollection.setCircuitStateAsync env_ok
        (NixieCircuitCollection.setCircuitAsync empty_collection pool5 tt world_off).1.1.1
        0%nat true
        (NixieCircuitCollection.setCircuitAsync empty_collection pool5 tt world_off).1.2).2
     = Resolved None.
Proof.
  split; [reflexivity|].
  exact (proj1 (created_unit_is_found (Data := unit) env_ok empty_collection pool5 tt
                  0%nat true world_off eq_refl)).
Defined.
